(** * MT6701 magnetic encoder driver: position tracking and speed filter

    A shallow embedding of [MT6701.cpp] / [MT6701.hpp].  The driver object
    is a record, the I2C bus and the millisecond timer are an explicit
    [Board] that every hardware call threads through, C++ [int] and
    [unsigned long] are integers with their wrap-around written out, and
    [float] is IEEE-754 binary32 (round to nearest even) as given by the
    Standard Library's executable [SpecFloat]. *)

From Stdlib Require Import ZArith List Bool Lia Strings.Byte.
From Stdlib Require Import Floats.SpecFloat.
From stdpp Require Import base list.

Local Open Scope Z_scope.

(** ** Machine integers *)

(** The width of [int] is the platform's: 16 bits on the AVR boards the
    driver's comments name, 32 bits on ARM and ESP32 boards.  The C++
    standard guarantees at least 16. *)
Class Platform := {
  int_bits : Z;
  int_bits_min : 16 <= int_bits
}.

Definition avr : Platform :=
  {| int_bits := 16; int_bits_min := Z.le_refl 16 |}.

Definition arm32 : Platform :=
  {| int_bits := 32; int_bits_min := ltac:(discriminate) |}.

Module Int.
Section WithPlatform.
Context {P : Platform}.

Definition modulus : Z := 2 ^ int_bits.
Definition half_modulus : Z := 2 ^ (int_bits - 1).
Definition max_int : Z := half_modulus - 1.
Definition min_int : Z := - half_modulus.

(** Two's complement reduction of a mathematical result into [int].  C++
    leaves signed overflow undefined; the model gives it the wrap-around
    the compilers for these boards produce. *)
Definition wrap (z : Z) : Z := (z + half_modulus) mod modulus - half_modulus.

Definition add (a b : Z) : Z := wrap (a + b).
Definition sub (a b : Z) : Z := wrap (a - b).

Definition in_range (z : Z) : Prop := min_int <= z <= max_int.
End WithPlatform.
End Int.

(** [unsigned long] is 32 bits wide on every Arduino core. *)
Module ULong.
Definition modulus : Z := 2 ^ 32.
Definition wrap (z : Z) : Z := z mod modulus.
Definition sub (a b : Z) : Z := wrap (a - b).
End ULong.

(** ** Single precision floats *)

Module F32.
Definition prec : Z := 24.
Definition emax : Z := 128.

Definition zero : spec_float := S754_zero false.
Definition add : spec_float -> spec_float -> spec_float := SFadd prec emax.
Definition mul : spec_float -> spec_float -> spec_float := SFmul prec emax.
Definition div : spec_float -> spec_float -> spec_float := SFdiv prec emax.
Definition ltb : spec_float -> spec_float -> bool := SFltb.
Definition leb : spec_float -> spec_float -> bool := SFleb.

(** Conversion of an integer value ([int] or [unsigned long]) to [float]. *)
Definition of_Z (z : Z) : spec_float := binary_normalize prec emax z 0 false.

(** Arduino's [abs] is the macro [((x)>0?(x):-(x))]. *)
Definition abs (x : spec_float) : spec_float :=
  if ltb zero x then x else SFopp x.
End F32.

(** ** Constants of [MT6701.hpp] *)

Definition DEFAULT_ADDRESS : byte := x06.
Definition UPDATE_INTERVAL : Z := 50.
Definition COUNTS_PER_REVOLUTION : Z := 16384.
(** [PI] is the double 0x400921FB54442D18 = 7074237752028440 * 2^-51, and
    the division by 2^14 is exact, so the constant is that double times
    2^-13 rounded to single precision: 13176795 * 2^-35.  Where [double]
    is itself single precision, as on AVR, the constant is the same. *)
Definition COUNTS_TO_RADIANS : spec_float :=
  binary_normalize F32.prec F32.emax 7074237752028440 (-64) false.
(** 360 / 16384 = 45 * 2^-11 *)
Definition COUNTS_TO_DEGREES : spec_float :=
  binary_normalize F32.prec F32.emax 45 (-11) false.
Definition SECONDS_PER_MINUTE : spec_float := F32.of_Z 60.
Definition RPM_THRESHOLD : Z := 1000.
Definition RPM_FILTER_SIZE : Z := 10.

(** ** The hardware the driver talks to *)

(** [wire_rx k] is what the sensor puts on the bus in answer to the [k]-th
    [Wire.requestFrom] since power-up, [timer k] what the [k]-th call of
    [millis()] returns; the two counters say how many calls were made. *)
Record Board := mkBoard {
  wire_rx : nat -> list byte;
  wire_requests : nat;
  timer : nat -> Z;
  timer_calls : nat
}.

Definition millis (b : Board) : Z * Board :=
  (ULong.wrap (timer b (timer_calls b)),
   mkBoard (wire_rx b) (wire_requests b) (timer b) (S (timer_calls b))).

(** ** The driver object *)

Record MT6701 := mkMT6701 {
  address : byte;
  updateIntervalMillis : Z;
  lastUpdateTime : Z;
  count : Z;
  accumulator : Z;
  rpm : spec_float;
  rpmFilter : list spec_float;
  rpmFilterIndex : Z;
  rpmFilterSize : Z;
  rpmThreshold : Z
}.

(** Running a member function either completes or hits behaviour the
    language leaves undefined (an integer remainder by zero, a store
    outside the filter array). *)
Inductive exec (A : Type) : Type :=
| Done (a : A)
| Undefined.
Arguments Done {A} a.
Arguments Undefined {A}.

Definition bind {A B : Type} (m : exec A) (k : A -> exec B) : exec B :=
  match m with
  | Done a => k a
  | Undefined => Undefined
  end.

Notation "'let*' x ':=' m 'in' k" := (bind m (fun x => k))
  (at level 10, x name, m at level 100, k at level 200).

Section Driver.
Context {P : Platform}.

(** Constructor. *)
Definition new (device_address : byte)
    (update_interval rpm_threshold rpm_filter_size : Z) : MT6701 :=
  {| address := device_address;
     updateIntervalMillis := update_interval;
     lastUpdateTime := 0;
     count := 0;
     accumulator := 0;
     rpm := F32.of_Z 0;
     rpmFilter := replicate (Z.to_nat RPM_FILTER_SIZE) F32.zero;
     rpmFilterIndex := 0;
     rpmFilterSize :=
       if rpm_filter_size >? RPM_FILTER_SIZE then RPM_FILTER_SIZE
       else rpm_filter_size;
     rpmThreshold := rpm_threshold |}.

(** The object the sketch declares: every argument at its default. *)
Definition mt6701 : MT6701 :=
  new DEFAULT_ADDRESS UPDATE_INTERVAL RPM_THRESHOLD RPM_FILTER_SIZE.

(** *** Accessors *)

Definition getAngleRadians (s : MT6701) : spec_float :=
  F32.mul (F32.of_Z (count s)) COUNTS_TO_RADIANS.

Definition getAngleDegrees (s : MT6701) : spec_float :=
  F32.mul (F32.of_Z (count s)) COUNTS_TO_DEGREES.

Definition getFullTurns (s : MT6701) : Z :=
  Z.quot (accumulator s) COUNTS_PER_REVOLUTION.

Definition getTurns (s : MT6701) : spec_float :=
  F32.div (F32.of_Z (accumulator s)) (F32.of_Z COUNTS_PER_REVOLUTION).

Definition getAccumulator (s : MT6701) : Z := accumulator s.

(** The summation loop of [getRPM]: [i] runs from its start value while
    [i < rpmFilterSize]; [n] bounds the iterations left.  The capacity
    never exceeds the ten slots of the array, so the lookup always finds
    its slot. *)
Fixpoint getRPM_loop (n : nat) (i : Z) (s : MT6701) (sum : spec_float)
    : spec_float :=
  match n with
  | O => sum
  | S n' =>
      if i <? rpmFilterSize s then
        getRPM_loop n' (i + 1) s
          (F32.add sum (default F32.zero (rpmFilter s !! Z.to_nat i)))
      else sum
  end.

Definition getRPM (s : MT6701) : spec_float :=
  let sum := getRPM_loop (Z.to_nat (rpmFilterSize s)) 0 s (F32.of_Z 0) in
  F32.div sum (F32.of_Z (rpmFilterSize s)).

Definition getCount (s : MT6701) : Z := count s.

(** *** Reading the sensor *)

Definition readCount (s : MT6701) (b : Board) : Z * Board :=
  let reply := wire_rx b (wire_requests b) in
  let b' := mkBoard (wire_rx b) (S (wire_requests b)) (timer b) (timer_calls b) in
  match reply with
  | angle_h :: angle_l :: _ =>
      (Z.lor (Z.shiftl (Z.of_N (Byte.to_N angle_h)) 6)
             (Z.shiftr (Z.of_N (Byte.to_N angle_l)) 2), b')
  | _ => (-1, b')
  end.

(** *** The moving-average filter *)

Definition updateRPMFilter (newRPM : spec_float) (s : MT6701) : exec MT6701 :=
  if (0 <=? rpmFilterIndex s) && (rpmFilterIndex s <? RPM_FILTER_SIZE) then
    if rpmFilterSize s =? 0 then Undefined
    else
      Done {| address := address s;
              updateIntervalMillis := updateIntervalMillis s;
              lastUpdateTime := lastUpdateTime s;
              count := count s;
              accumulator := accumulator s;
              rpm := rpm s;
              rpmFilter := <[Z.to_nat (rpmFilterIndex s) := newRPM]> (rpmFilter s);
              rpmFilterIndex :=
                Z.rem (Int.add (rpmFilterIndex s) 1) (rpmFilterSize s);
              rpmFilterSize := rpmFilterSize s;
              rpmThreshold := rpmThreshold s |}
  else Undefined.

(** *** The poll *)

(** The retry loop of [updateCount]: [for (i = 0; i < 3 && newCount < 0; i++)],
    with [n] the iterations [i] has left. *)
Fixpoint retry (n : nat) (s : MT6701) (newCount : Z) (b : Board) : Z * Board :=
  match n with
  | O => (newCount, b)
  | S n' =>
      if newCount <? 0 then
        let '(c, b') := readCount s b in retry n' s c b'
      else (newCount, b)
  end.

(** Lines 129-135: the difference to the stored count, brought back into
    half a revolution either way. *)
Definition count_diff (newCount old : Z) : Z :=
  let diff := Int.sub newCount old in
  if diff >? Z.quot COUNTS_PER_REVOLUTION 2 then
    Int.sub diff COUNTS_PER_REVOLUTION
  else if diff <? Z.quot (- COUNTS_PER_REVOLUTION) 2 then
    Int.add diff COUNTS_PER_REVOLUTION
  else diff.

(** Line 142. *)
Definition rpm_of (diff timeElapsed : Z) : spec_float :=
  F32.mul
    (F32.div (F32.of_Z diff) (F32.of_Z COUNTS_PER_REVOLUTION))
    (F32.div (F32.mul SECONDS_PER_MINUTE (F32.of_Z 1000))
             (F32.of_Z timeElapsed)).

Definition set_rpm (r : spec_float) (s : MT6701) : MT6701 :=
  {| address := address s;
     updateIntervalMillis := updateIntervalMillis s;
     lastUpdateTime := lastUpdateTime s;
     count := count s;
     accumulator := accumulator s;
     rpm := r;
     rpmFilter := rpmFilter s;
     rpmFilterIndex := rpmFilterIndex s;
     rpmFilterSize := rpmFilterSize s;
     rpmThreshold := rpmThreshold s |}.

(** Lines 148-150. *)
Definition commit (diff newCount currentTime : Z) (s : MT6701) : MT6701 :=
  {| address := address s;
     updateIntervalMillis := updateIntervalMillis s;
     lastUpdateTime := currentTime;
     count := newCount;
     accumulator := Int.add (accumulator s) diff;
     rpm := rpm s;
     rpmFilter := rpmFilter s;
     rpmFilterIndex := rpmFilterIndex s;
     rpmFilterSize := rpmFilterSize s;
     rpmThreshold := rpmThreshold s |}.

Definition updateCount (s : MT6701) (b : Board) : exec (MT6701 * Board) :=
  let '(newCount, b) := readCount s b in
  let '(newCount, b) := retry 3 s newCount b in
  if newCount <? 0 then Done (s, b)
  else
    let diff := count_diff newCount (count s) in
    let '(currentTime, b) := millis b in
    let timeElapsed := ULong.sub currentTime (lastUpdateTime s) in
    let* s1 :=
      (if timeElapsed >? 0 then
         let s0 := set_rpm (rpm_of diff timeElapsed) s in
         if F32.ltb (F32.abs (rpm s0)) (F32.of_Z (rpmThreshold s0))
         then updateRPMFilter (rpm s0) s0
         else Done s0
       else Done s) in
    Done (commit diff newCount currentTime s1, b).

(** The sketch's [loop()] run [n] times; what it prints is not modelled. *)
Fixpoint loop (n : nat) (s : MT6701) (b : Board) : exec (MT6701 * Board) :=
  match n with
  | O => Done (s, b)
  | S n' => let* sb := updateCount s b in loop n' (fst sb) (snd sb)
  end.

End Driver.

(** ** The poll, piece by piece *)

Section PollPieces.
Context {P : Platform}.

(** Lines 119-123: the first read and the retry loop. *)
Definition acquire (s : MT6701) (b : Board) : Z * Board :=
  let '(newCount, b) := readCount s b in retry 3 s newCount b.

(** Lines 140-146: the rate of this tick and its way into the filter. *)
Definition rate_step (diff timeElapsed : Z) (s : MT6701) : exec MT6701 :=
  if timeElapsed >? 0 then
    let s0 := set_rpm (rpm_of diff timeElapsed) s in
    if F32.ltb (F32.abs (rpm s0)) (F32.of_Z (rpmThreshold s0))
    then updateRPMFilter (rpm s0) s0
    else Done s0
  else Done s.

(** Lines 129-150: what a poll does once it holds a sample. *)
Definition track (newCount : Z) (s : MT6701) (b : Board)
    : exec (MT6701 * Board) :=
  let diff := count_diff newCount (count s) in
  let '(currentTime, b) := millis b in
  let timeElapsed := ULong.sub currentTime (lastUpdateTime s) in
  let* s1 := rate_step diff timeElapsed s in
  Done (commit diff newCount currentTime s1, b).

(** The locals of a poll that holds a sample: [newCount], [currentTime],
    [timeElapsed], [diff] and the rate assigned to [rpm]. *)
Definition poll_count (s : MT6701) (b : Board) : Z := fst (acquire s b).
Definition poll_time (s : MT6701) (b : Board) : Z :=
  fst (millis (snd (acquire s b))).
Definition poll_elapsed (s : MT6701) (b : Board) : Z :=
  ULong.sub (poll_time s b) (lastUpdateTime s).
Definition poll_diff (s : MT6701) (b : Board) : Z :=
  count_diff (poll_count s b) (count s).
Definition poll_rate (s : MT6701) (b : Board) : spec_float :=
  rpm_of (poll_diff s b) (poll_elapsed s b).

(** [Wire.available() < 2] fails on a reply of fewer than two bytes. *)
Definition valid_reply (r : list byte) : bool := (2 <=? length r)%nat.

(** The fields a poll's rate computation never touches. *)
Definition same_position (s s1 : MT6701) : Prop :=
  address s1 = address s /\
  updateIntervalMillis s1 = updateIntervalMillis s /\
  lastUpdateTime s1 = lastUpdateTime s /\
  count s1 = count s /\
  accumulator s1 = accumulator s /\
  rpmFilterSize s1 = rpmFilterSize s /\
  rpmThreshold s1 = rpmThreshold s.

End PollPieces.

(** ** Boards for concrete runs *)

(** The two bytes the sensor sends for the 14-bit count [c]: the high eight
    bits, then the low six bits in the top of the second byte. *)
Definition sensor_bytes (c : Z) : list byte :=
  match Byte.of_N (Z.to_N (Z.shiftr c 6)),
        Byte.of_N (Z.to_N (Z.shiftl (Z.land c 63) 2)) with
  | Some h, Some l => [h; l]
  | _, _ => []
  end.

(** A board that answers the requests with [replies] in turn (nothing once
    they are used up) and whose clock reads [times] in turn. *)
Definition board_of (replies : list (list byte)) (times : list Z) : Board :=
  mkBoard (fun k => nth k replies []) 0 (fun k => nth k times 0) 0.

(** Count and accumulator at the end of a run. *)
Definition position {B : Type} (r : exec (MT6701 * B)) : option (Z * Z) :=
  match r with
  | Done (s, _) => Some (count s, accumulator s)
  | Undefined => None
  end.

(** The end-to-end run of the specification: raw 10, 20, 16374, one every
    100 ms. *)
Definition spec_example_board : Board :=
  board_of (map sensor_bytes [10; 20; 16374]) [100; 200; 300].

Definition spec_example_final : MT6701 * Board :=
  Eval vm_compute in
    match loop (P := avr) 3 mt6701 spec_example_board with
    | Done r => r
    | Undefined => (mt6701, spec_example_board)
    end.

(** Nine polls, each within half a revolution of the last, that take a
    16-bit accumulator to its largest value, and a tenth across the zero
    of the sensor. *)
Definition two_turns_board : Board :=
  board_of
    (map sensor_bytes
       [4000; 8000; 12000; 16000; 3616; 7616; 11616; 15616; 16383; 0])
    [100; 200; 300; 400; 500; 600; 700; 800; 900; 1000].

Definition two_turns_state : MT6701 * Board :=
  Eval vm_compute in
    match loop (P := avr) 9 mt6701 two_turns_board with
    | Done r => r
    | Undefined => (mt6701, two_turns_board)
    end.

(** The same the other way round, down to the smallest value. *)
Definition two_turns_back_board : Board :=
  board_of
    (map sensor_bytes
       [12384; 8384; 4384; 384; 12768; 8768; 4768; 768; 0; 16383])
    [100; 200; 300; 400; 500; 600; 700; 800; 900; 1000].

Definition two_turns_back_state : MT6701 * Board :=
  Eval vm_compute in
    match loop (P := avr) 9 mt6701 two_turns_back_board with
    | Done r => r
    | Undefined => (mt6701, two_turns_back_board)
    end.

(** One poll across the zero of the sensor in each direction, from a
    freshly constructed driver. *)
Definition back_and_forth_board : Board :=
  board_of (map sensor_bytes [16383; 0]) [100; 200].

Definition back_and_forth_state : MT6701 * Board :=
  Eval vm_compute in
    match loop (P := avr) 1 mt6701 back_and_forth_board with
    | Done r => r
    | Undefined => (mt6701, back_and_forth_board)
    end.

Definition back_and_forth_final : MT6701 * Board :=
  Eval vm_compute in
    match updateCount (P := avr) (fst back_and_forth_state)
            (snd back_and_forth_state) with
    | Done r => r
    | Undefined => back_and_forth_state
    end.

(** Half a revolution forward in one poll, and half a revolution back in
    the next. *)
Definition half_turn_board : Board :=
  board_of (map sensor_bytes [8192; 0]) [100; 200].

Definition half_turn_state : MT6701 * Board :=
  Eval vm_compute in
    match loop (P := avr) 1 mt6701 half_turn_board with
    | Done r => r
    | Undefined => (mt6701, half_turn_board)
    end.

Definition half_turn_final : MT6701 * Board :=
  Eval vm_compute in
    match updateCount (P := avr) (fst half_turn_state) (snd half_turn_state) with
    | Done r => r
    | Undefined => half_turn_state
    end.

(** Two polls that read the same clock value. *)
Definition same_time_board : Board :=
  board_of (map sensor_bytes [10; 20]) [100; 100].

Definition same_time_state : MT6701 * Board :=
  Eval vm_compute in
    match loop (P := avr) 1 mt6701 same_time_board with
    | Done r => r
    | Undefined => (mt6701, same_time_board)
    end.

(** A jump of 8000 counts within 10 ms: about 2930 rpm. *)
Definition jump_board : Board := board_of [sensor_bytes 8000] [10].

Definition jump_final : MT6701 * Board :=
  Eval vm_compute in
    match updateCount (P := avr) mt6701 jump_board with
    | Done r => r
    | Undefined => (mt6701, jump_board)
    end.

(** The run of the specification's example on a driver whose threshold
    is 0, which accepts no rate at all. *)
Definition zero_threshold_final : MT6701 * Board :=
  Eval vm_compute in
    match loop (P := avr) 3
            (new DEFAULT_ADDRESS UPDATE_INTERVAL 0 RPM_FILTER_SIZE)
            spec_example_board with
    | Done r => r
    | Undefined => (mt6701, spec_example_board)
    end.

(** A sensor that never answers, and one that answers the fourth request. *)
Definition silent_board : Board := board_of [] [].

Definition late_reply_board : Board :=
  board_of [[]; []; []; sensor_bytes 10] [100].

(** ** The retry budget, in the words of the specification *)

(** Requests made when up to [budget] attempts are allowed and the first
    valid reply ends them; [k] is the index of the next reply. *)
Fixpoint attempts (budget : nat) (rx : nat -> list byte) (k : nat) : nat :=
  match budget with
  | O => O
  | S n => if valid_reply (rx k) then 1%nat else S (attempts n rx (S k))
  end.

(** Everything the accessors let a caller see. *)
Definition observations (s : MT6701)
    : spec_float * spec_float * Z * spec_float * Z * spec_float * Z :=
  (getAngleRadians s, getAngleDegrees s, getFullTurns s, getTurns s,
   getAccumulator s, getRPM s, getCount s).

(** ** The moving average, in the words of the specification *)

(** The arithmetic mean of the samples, in single precision, the sum taken
    from left to right. *)
Definition mean (xs : list spec_float) : spec_float :=
  F32.div (fold_left F32.add xs (F32.of_Z 0)) (F32.of_Z (Z.of_nat (length xs))).

Section Samples.
Context {P : Platform}.

(** The samples [xs] written into the filter one after the other. *)
Fixpoint feed (xs : list spec_float) (s : MT6701) : exec MT6701 :=
  match xs with
  | [] => Done s
  | x :: xs' => let* s1 := updateRPMFilter x s in feed xs' s1
  end.

(** Whether the poll holds a sample, sees time pass and computes a rate
    that passes the threshold test. *)
Definition poll_accepts (s : MT6701) (b : Board) : bool :=
  (0 <=? poll_count s b) && (poll_elapsed s b >? 0) &&
  F32.ltb (F32.abs (poll_rate s b)) (F32.of_Z (rpmThreshold s)).

(** The rates the first [n] polls accept, oldest first. *)
Fixpoint accepted_rates (n : nat) (s : MT6701) (b : Board) : list spec_float :=
  match n with
  | O => []
  | S n' =>
      match updateCount s b with
      | Done (s1, b1) =>
          (if poll_accepts s b then [poll_rate s b] else [])
          ++ accepted_rates n' s1 b1
      | Undefined => []
      end
  end.

(** Two driver objects with the same filter: buffer, write index and
    capacity. *)
Definition same_filter (s t : MT6701) : Prop :=
  rpmFilter s = rpmFilter t /\
  rpmFilterIndex s = rpmFilterIndex t /\
  rpmFilterSize s = rpmFilterSize t.

End Samples.

(** A driver with a window of two slots polled three times, 100 ms
    apart, the shaft 10, 20 and 30 counts further each time. *)
Definition small_window : MT6701 :=
  new DEFAULT_ADDRESS UPDATE_INTERVAL RPM_THRESHOLD 2.

Definition small_window_board : Board :=
  board_of (map sensor_bytes [10; 30; 60]) [100; 200; 300].

Definition small_window_after2 : MT6701 * Board :=
  Eval vm_compute in
    match loop (P := avr) 2 small_window small_window_board with
    | Done r => r
    | Undefined => (small_window, small_window_board)
    end.

Definition small_window_after3 : MT6701 * Board :=
  Eval vm_compute in
    match loop (P := avr) 3 small_window small_window_board with
    | Done r => r
    | Undefined => (small_window, small_window_board)
    end.

Definition small_window_rates : list spec_float :=
  Eval vm_compute in accepted_rates (P := avr) 3 small_window small_window_board.

(** ** Invariants *)

Section Invariants.
Context {P : Platform}.

(** The stored count is a raw count and is the accumulator's residue. *)
Definition position_ok (s : MT6701) : Prop :=
  0 <= count s < COUNTS_PER_REVOLUTION /\
  Int.in_range (accumulator s) /\
  accumulator s mod COUNTS_PER_REVOLUTION = count s.

(** Every slot of the filter is still the zero it was initialised with
    or holds a rate that passed the threshold test. *)
Definition filter_ok (s : MT6701) : Prop :=
  Forall (fun x => x = F32.zero \/
                   F32.ltb (F32.abs x) (F32.of_Z (rpmThreshold s)) = true)
         (rpmFilter s).

(** The filter window: a capacity the array can hold, a write index
    inside it, the array at its declared length, and nothing but the
    initial zeros beyond the capacity. *)
Definition window_ok (s : MT6701) : Prop :=
  1 <= rpmFilterSize s <= RPM_FILTER_SIZE /\
  0 <= rpmFilterIndex s < rpmFilterSize s /\
  length (rpmFilter s) = Z.to_nat RPM_FILTER_SIZE /\
  forall i : nat,
    (Z.to_nat (rpmFilterSize s) <= i < Z.to_nat RPM_FILTER_SIZE)%nat ->
    rpmFilter s !! i = Some F32.zero.

End Invariants.

(** ** Checking a property on every value of a small range *)

(** [f] holds of the [2 ^ d] integers from [lo] on; the range is halved
    [d] times. *)
Fixpoint all_from (d : nat) (lo : Z) (f : Z -> bool) : bool :=
  match d with
  | O => f lo
  | S d' => all_from d' lo f && all_from d' (lo + 2 ^ Z.of_nat d') f
  end.

(** [f] holds of 0, 1, ..., [2 ^ d - 1]. *)
Definition all_below (d : nat) (f : Z -> bool) : bool := all_from d 0 f.

(** Structural equality of floats: same sign, mantissa and exponent. *)
Definition float_eqb (x y : spec_float) : bool :=
  match x, y with
  | S754_zero s1, S754_zero s2 => Bool.eqb s1 s2
  | S754_infinity s1, S754_infinity s2 => Bool.eqb s1 s2
  | S754_nan, S754_nan => true
  | S754_finite s1 m1 e1, S754_finite s2 m2 e2 =>
      Bool.eqb s1 s2 && Pos.eqb m1 m2 && (e1 =? e2)
  | _, _ => false
  end.

(** The largest single precision number below 2 pi: 13176794 * 2^-21. *)
Definition BELOW_TWO_PI : spec_float := S754_finite false 13176794 (-21).


(** ** More boards for concrete runs *)

Definition last_count_board : Board := board_of [sensor_bytes 16374] [].

(** A jump of 10000 counts, more than half a revolution, in one poll. *)
Definition far_jump_board : Board := board_of [sensor_bytes 10000] [100].

Definition far_jump_final : MT6701 * Board :=
  Eval vm_compute in
    match updateCount (P := avr) mt6701 far_jump_board with
    | Done r => r
    | Undefined => (mt6701, far_jump_board)
    end.

(** ** A shaft followed poll by poll *)

(** Each position of [ps] is less than half a revolution from the one
    before it, the first from [p]. *)
Fixpoint smooth (p : Z) (ps : list Z) : Prop :=
  match ps with
  | [] => True
  | q :: qs => -8192 < q - p < 8192 /\ smooth q qs
  end.

(** The next replies of the sensor are, in turn, the counts at which a
    shaft at the positions [ps] stands. *)
Definition readings_follow (b : Board) (ps : list Z) : Prop :=
  forall k, (k < length ps)%nat ->
    wire_rx b (wire_requests b + k)%nat
    = sensor_bytes (nth k ps 0 mod COUNTS_PER_REVOLUTION).

(** Two polls either side of the roll-over of the 32-bit clock. *)
Definition rollover_board : Board :=
  board_of (map sensor_bytes [10; 20]) [4294967290; 5].

Definition rollover_state : MT6701 * Board :=
  Eval vm_compute in
    match loop (P := avr) 1 mt6701 rollover_board with
    | Done r => r
    | Undefined => (mt6701, rollover_board)
    end.

Definition rollover_final : MT6701 * Board :=
  Eval vm_compute in
    match updateCount (P := avr) (fst rollover_state) (snd rollover_state) with
    | Done r => r
    | Undefined => rollover_state
    end.

Definition late_reply_board_final : MT6701 * Board :=
  Eval vm_compute in
    match loop (P := avr) 1 mt6701 late_reply_board with
    | Done r => r
    | Undefined => (mt6701, late_reply_board)
    end.

Definition small_window_after1 : MT6701 * Board :=
  Eval vm_compute in
    match loop (P := avr) 1 small_window small_window_board with
    | Done r => r
    | Undefined => (small_window, small_window_board)
    end.


(** * Facts about the machine arithmetic *)

Section IntFacts.
Context {P : Platform}.

Lemma modulus_twice_half : Int.modulus = 2 * Int.half_modulus.
Proof.
  unfold Int.modulus, Int.half_modulus.
  pose proof int_bits_min.
  replace int_bits with (Z.succ (int_bits - 1)) at 1 by lia.
  apply Z.pow_succ_r. lia.
Qed.

Lemma half_modulus_big : 32768 <= Int.half_modulus.
Proof.
  unfold Int.half_modulus. pose proof int_bits_min.
  change 32768 with (2 ^ 15). apply Z.pow_le_mono_r; lia.
Qed.

Lemma revolution_divides_modulus :
  Int.modulus = COUNTS_PER_REVOLUTION * 2 ^ (int_bits - 14).
Proof.
  unfold Int.modulus. pose proof int_bits_min.
  change COUNTS_PER_REVOLUTION with (2 ^ 14).
  rewrite <- Z.pow_add_r by lia. f_equal. lia.
Qed.

Lemma wrap_in_range z : Int.in_range (Int.wrap z).
Proof.
  unfold Int.in_range, Int.wrap, Int.max_int, Int.min_int.
  pose proof modulus_twice_half. pose proof half_modulus_big.
  pose proof (Z.mod_pos_bound (z + Int.half_modulus) Int.modulus). lia.
Qed.

Lemma wrap_small z : Int.in_range z -> Int.wrap z = z.
Proof.
  unfold Int.in_range, Int.wrap, Int.max_int, Int.min_int. intros Hz.
  pose proof modulus_twice_half.
  rewrite Z.mod_small by lia. lia.
Qed.

Lemma small_in_range z : -32768 <= z <= 32767 -> Int.in_range z.
Proof.
  unfold Int.in_range, Int.max_int, Int.min_int.
  pose proof half_modulus_big. lia.
Qed.

(** Wrapping an [int] never changes its residue modulo a revolution,
    whatever the width. *)
Lemma wrap_mod_revolution z :
  Int.wrap z mod COUNTS_PER_REVOLUTION = z mod COUNTS_PER_REVOLUTION.
Proof.
  unfold Int.wrap.
  pose proof int_bits_min.
  assert (Hpos : 0 < 2 ^ (int_bits - 14)) by (apply Z.pow_pos_nonneg; lia).
  assert (Hh : Int.half_modulus = COUNTS_PER_REVOLUTION * 2 ^ (int_bits - 15)).
  { unfold Int.half_modulus. change COUNTS_PER_REVOLUTION with (2 ^ 14).
    rewrite <- Z.pow_add_r by lia. f_equal. lia. }
  rewrite (Z.mod_eq (z + Int.half_modulus) Int.modulus)
    by (rewrite revolution_divides_modulus; unfold COUNTS_PER_REVOLUTION; lia).
  rewrite revolution_divides_modulus at 1. rewrite Hh.
  set (q := (z + _) / Int.modulus).
  replace (z + COUNTS_PER_REVOLUTION * 2 ^ (int_bits - 15)
           - COUNTS_PER_REVOLUTION * 2 ^ (int_bits - 14) * q
           - COUNTS_PER_REVOLUTION * 2 ^ (int_bits - 15))
    with (z + (- (2 ^ (int_bits - 14) * q)) * COUNTS_PER_REVOLUTION) by ring.
  apply Z_mod_plus_full.
Qed.

End IntFacts.

(** The sign-corrected remainder of the specification, written with the
    truncating remainder of C++, is the mathematical residue. *)
Lemma sign_corrected_rem a r :
  0 < r -> Z.rem (Z.rem a r + r) r = a mod r.
Proof.
  intros Hr.
  pose proof (Z.rem_bound_abs a r ltac:(lia)) as Hb.
  pose proof (Z.quot_rem' a r) as Hq.
  rewrite Z.rem_mod_nonneg by lia.
  replace (Z.rem a r + r) with (a + (1 - Z.quot a r) * r) by lia.
  apply Z_mod_plus_full.
Qed.

(** * The sensor read and the retry loop *)

Section Poll.
Context {P : Platform}.

Lemma updateCount_eq s b :
  updateCount s b =
  if fst (acquire s b) <? 0 then Done (s, snd (acquire s b))
  else track (fst (acquire s b)) s (snd (acquire s b)).
Proof.
  unfold updateCount, acquire, track, rate_step.
  destruct (readCount s b) as [c0 b0].
  destruct (retry 3 s c0 b0) as [c1 b1]. reflexivity.
Qed.

(** *** The sensor read *)

Lemma lor_below_pow2 a b n :
  0 <= a < 2 ^ n -> 0 <= b < 2 ^ n -> 0 <= Z.lor a b < 2 ^ n.
Proof.
  intros Ha Hb.
  assert (Hnn : 0 <= Z.lor a b) by (apply Z.lor_nonneg; lia).
  split; [exact Hnn|].
  destruct (Z.eq_dec (Z.lor a b) 0) as [E|E]; [lia|].
  apply Z.log2_lt_pow2; [lia|].
  rewrite Z.log2_lor by lia.
  destruct (Z.eq_dec a 0) as [->|Na]; destruct (Z.eq_dec b 0) as [->|Nb].
  - exfalso. apply E. reflexivity.
  - rewrite Z.max_r by (apply Z.log2_nonneg). apply Z.log2_lt_pow2; lia.
  - rewrite Z.max_l by (apply Z.log2_nonneg). apply Z.log2_lt_pow2; lia.
  - apply Z.max_lub_lt; apply Z.log2_lt_pow2; lia.
Qed.

Lemma angle_bytes_range (h l : byte) :
  0 <= Z.lor (Z.shiftl (Z.of_N (Byte.to_N h)) 6)
             (Z.shiftr (Z.of_N (Byte.to_N l)) 2) < COUNTS_PER_REVOLUTION.
Proof.
  pose proof (Byte.to_N_bounded h). pose proof (Byte.to_N_bounded l).
  change COUNTS_PER_REVOLUTION with (2 ^ 14).
  apply lor_below_pow2.
  - rewrite Z.shiftl_mul_pow2 by lia. change (2 ^ 6) with 64.
    change (2 ^ 14) with 16384. lia.
  - rewrite Z.shiftr_div_pow2 by lia. change (2 ^ 2) with 4.
    change (2 ^ 14) with 16384.
    assert (0 <= Z.of_N (Byte.to_N l) <= 255) as Hl by lia.
    revert Hl. generalize (Z.of_N (Byte.to_N l)). intros z Hz.
    pose proof (Z.div_pos z 4 ltac:(lia) ltac:(lia)).
    pose proof (Z.div_lt_upper_bound z 4 64 ltac:(lia) ltac:(lia)).
    lia.
Qed.

Lemma readCount_board s b :
  snd (readCount s b) =
  mkBoard (wire_rx b) (S (wire_requests b)) (timer b) (timer_calls b).
Proof.
  unfold readCount.
  destruct (wire_rx b (wire_requests b)) as [|h [|l r]]; reflexivity.
Qed.

Lemma readCount_invalid s b :
  valid_reply (wire_rx b (wire_requests b)) = false ->
  fst (readCount s b) = -1.
Proof.
  unfold readCount, valid_reply.
  destruct (wire_rx b (wire_requests b)) as [|h [|l r]]; simpl;
    [reflexivity | reflexivity | discriminate].
Qed.

Lemma readCount_valid s b :
  valid_reply (wire_rx b (wire_requests b)) = true ->
  0 <= fst (readCount s b) < COUNTS_PER_REVOLUTION.
Proof.
  unfold readCount, valid_reply.
  destruct (wire_rx b (wire_requests b)) as [|h [|l r]]; simpl;
    [discriminate | discriminate | intros _; apply angle_bytes_range].
Qed.

(** A read is either the failure code or a raw count of the sensor. *)
Lemma readCount_range s b :
  fst (readCount s b) = -1 \/ 0 <= fst (readCount s b) < COUNTS_PER_REVOLUTION.
Proof.
  destruct (valid_reply (wire_rx b (wire_requests b))) eqn:E.
  - right. now apply readCount_valid.
  - left. now apply readCount_invalid.
Qed.

Lemma retry_range n s c b :
  c = -1 \/ 0 <= c < COUNTS_PER_REVOLUTION ->
  fst (retry n s c b) = -1 \/ 0 <= fst (retry n s c b) < COUNTS_PER_REVOLUTION.
Proof.
  revert c b. induction n as [|n IH]; intros c b Hc; simpl; [exact Hc|].
  destruct (c <? 0) eqn:E; [|exact Hc].
  pose proof (readCount_range s b) as Hr.
  destruct (readCount s b) as [c' b']. simpl in Hr. now apply IH.
Qed.

Lemma acquire_range s b :
  fst (acquire s b) = -1 \/ 0 <= fst (acquire s b) < COUNTS_PER_REVOLUTION.
Proof.
  unfold acquire. pose proof (readCount_range s b) as Hr.
  destruct (readCount s b) as [c b']. simpl in Hr. now apply retry_range.
Qed.

End Poll.

(** * What one poll changes *)

Section Frame.
Context {P : Platform}.

Lemma half_revolution : Z.quot COUNTS_PER_REVOLUTION 2 = 8192.
Proof. reflexivity. Qed.

Lemma minus_half_revolution : Z.quot (- COUNTS_PER_REVOLUTION) 2 = -8192.
Proof. reflexivity. Qed.

(** The three cases of the wrap-around correction, for raw counts. *)
Lemma count_diff_cases c old :
  0 <= c < COUNTS_PER_REVOLUTION -> 0 <= old < COUNTS_PER_REVOLUTION ->
  (8192 < c - old -> count_diff c old = c - old - COUNTS_PER_REVOLUTION) /\
  (c - old < -8192 -> count_diff c old = c - old + COUNTS_PER_REVOLUTION) /\
  (-8192 <= c - old <= 8192 -> count_diff c old = c - old).
Proof.
  unfold COUNTS_PER_REVOLUTION. intros Hc Ho.
  unfold count_diff, Int.sub, Int.add.
  rewrite half_revolution, minus_half_revolution.
  rewrite (wrap_small (c - old)) by (apply small_in_range; lia).
  unfold COUNTS_PER_REVOLUTION.
  destruct (Z.gtb_spec (c - old) 8192); destruct (Z.ltb_spec (c - old) (-8192));
    repeat split; intros; try lia;
    apply wrap_small, small_in_range; lia.
Qed.

Lemma count_diff_mod c old :
  0 <= c < COUNTS_PER_REVOLUTION -> 0 <= old < COUNTS_PER_REVOLUTION ->
  count_diff c old mod COUNTS_PER_REVOLUTION
  = (c - old) mod COUNTS_PER_REVOLUTION.
Proof.
  intros Hc Ho.
  destruct (count_diff_cases c old Hc Ho) as (Hhi & Hlo & Hmid).
  destruct (Z_lt_le_dec 8192 (c - old)) as [H1|H1].
  - rewrite Hhi by exact H1.
    replace (c - old - COUNTS_PER_REVOLUTION)
      with (c - old + (-1) * COUNTS_PER_REVOLUTION) by ring.
    apply Z_mod_plus_full.
  - destruct (Z_lt_le_dec (c - old) (-8192)) as [H2|H2].
    + rewrite Hlo by exact H2.
      replace (c - old + COUNTS_PER_REVOLUTION)
        with (c - old + 1 * COUNTS_PER_REVOLUTION) by ring.
      apply Z_mod_plus_full.
    + rewrite Hmid by lia. reflexivity.
Qed.

Lemma updateRPMFilter_inv x s s1 :
  updateRPMFilter x s = Done s1 ->
  0 <= rpmFilterIndex s < RPM_FILTER_SIZE /\ rpmFilterSize s <> 0 /\
  s1 = {| address := address s;
          updateIntervalMillis := updateIntervalMillis s;
          lastUpdateTime := lastUpdateTime s;
          count := count s;
          accumulator := accumulator s;
          rpm := rpm s;
          rpmFilter := <[Z.to_nat (rpmFilterIndex s) := x]> (rpmFilter s);
          rpmFilterIndex :=
            Z.rem (Int.add (rpmFilterIndex s) 1) (rpmFilterSize s);
          rpmFilterSize := rpmFilterSize s;
          rpmThreshold := rpmThreshold s |}.
Proof.
  unfold updateRPMFilter.
  destruct (Z.leb_spec 0 (rpmFilterIndex s));
    destruct (Z.ltb_spec (rpmFilterIndex s) RPM_FILTER_SIZE); simpl;
    try discriminate.
  destruct (Z.eqb_spec (rpmFilterSize s) 0); [discriminate|].
  intros [= <-]. repeat split; auto.
Qed.

Lemma updateRPMFilter_position x s s1 :
  updateRPMFilter x s = Done s1 -> same_position s s1.
Proof.
  intros H. apply updateRPMFilter_inv in H as (_ & _ & ->).
  repeat split.
Qed.

Lemma rate_step_position d e s s1 :
  rate_step d e s = Done s1 -> same_position s s1.
Proof.
  unfold rate_step.
  destruct (e >? 0); [|intros [= <-]; repeat split].
  destruct (F32.ltb _ _).
  - intros H. apply updateRPMFilter_position in H. exact H.
  - intros [= <-]. repeat split.
Qed.

Lemma track_inv c s b s' b' :
  track c s b = Done (s', b') ->
  exists s1,
    rate_step (count_diff c (count s))
      (ULong.sub (fst (millis b)) (lastUpdateTime s)) s = Done s1 /\
    s' = commit (count_diff c (count s)) c (fst (millis b)) s1 /\
    b' = snd (millis b).
Proof.
  unfold track. simpl.
  destruct (rate_step _ _ s) as [s1|]; simpl; [|discriminate].
  intros [= <- <-]. exists s1. repeat split.
Qed.

(** A poll that holds a sample moves the position by the corrected
    difference, whatever happens to the rate. *)
Lemma track_position c s b s' b' :
  track c s b = Done (s', b') ->
  count s' = c /\
  accumulator s' = Int.add (accumulator s) (count_diff c (count s)) /\
  lastUpdateTime s' = fst (millis b) /\
  rpmFilterSize s' = rpmFilterSize s /\
  rpmThreshold s' = rpmThreshold s /\
  b' = snd (millis b).
Proof.
  intros H. apply track_inv in H as (s1 & Hr & -> & ->).
  apply rate_step_position in Hr as (_ & _ & _ & _ & Ha & Hs & Ht).
  simpl. rewrite Ha, Hs, Ht. repeat split.
Qed.

Lemma updateCount_failed s b :
  fst (acquire s b) < 0 -> updateCount s b = Done (s, snd (acquire s b)).
Proof.
  intros H. rewrite updateCount_eq.
  destruct (Z.ltb_spec (fst (acquire s b)) 0); [reflexivity|lia].
Qed.

Lemma updateCount_sampled s b :
  0 <= fst (acquire s b) ->
  updateCount s b = track (fst (acquire s b)) s (snd (acquire s b)).
Proof.
  intros H. rewrite updateCount_eq.
  destruct (Z.ltb_spec (fst (acquire s b)) 0); [lia|reflexivity].
Qed.

End Frame.

(** * The position invariant *)

Section Position.
Context {P : Platform}.

(** What every poll preserves, every run of polls preserves. *)
Lemma loop_invariant (I : MT6701 -> Prop) :
  (forall s b s' b', I s -> updateCount s b = Done (s', b') -> I s') ->
  forall n s b s' b', I s -> loop n s b = Done (s', b') -> I s'.
Proof.
  intros Hstep. induction n as [|n IH]; intros s b s' b' Hs; simpl.
  - intros [= <- <-]. exact Hs.
  - destruct (updateCount s b) as [[s1 b1]|] eqn:E; simpl; [|discriminate].
    intros H. eapply IH; [|exact H]. eapply Hstep; eauto.
Qed.

Lemma new_position_ok a u t f : position_ok (new a u t f).
Proof.
  unfold position_ok. simpl. split; [unfold COUNTS_PER_REVOLUTION; lia|].
  split; [apply small_in_range; lia | reflexivity].
Qed.

Lemma updateCount_position_ok s b s' b' :
  position_ok s -> updateCount s b = Done (s', b') -> position_ok s'.
Proof.
  intros (Hc & Hr & Hm) H.
  destruct (acquire_range s b) as [Hf|Hv].
  - rewrite updateCount_failed in H by lia.
    injection H as <- <-. exact (conj Hc (conj Hr Hm)).
  - rewrite updateCount_sampled in H by lia.
    apply track_position in H as (Hc' & Ha' & _).
    unfold position_ok. rewrite Hc', Ha'. split; [exact Hv|].
    split; [apply wrap_in_range|].
    unfold Int.add. rewrite wrap_mod_revolution.
    rewrite Z.add_mod by (unfold COUNTS_PER_REVOLUTION; lia).
    rewrite count_diff_mod, Hm by assumption.
    rewrite <- (Z.mod_small (count s) COUNTS_PER_REVOLUTION) at 1 by exact Hc.
    rewrite <- Z.add_mod by (unfold COUNTS_PER_REVOLUTION; lia).
    replace (count s + (fst (acquire s b) - count s)) with (fst (acquire s b)) by ring.
    apply Z.mod_small. exact Hv.
Qed.

Lemma loop_position_ok n s b s' b' :
  position_ok s -> loop n s b = Done (s', b') -> position_ok s'.
Proof. apply (loop_invariant position_ok), updateCount_position_ok. Qed.

(** C2. Accumulator invariant: from a freshly constructed driver, after
    any number of polls (failed ones included), the sign-corrected
    remainder [((accumulator % R) + R) % R] of the accumulator, computed
    with the truncating [%] of C++ and without leaving the range of
    [int], is the stored count. *)
Theorem accumulator_invariant a u t f n b s b' :
  loop n (new a u t f) b = Done (s, b') ->
  Z.rem (Z.rem (accumulator s) COUNTS_PER_REVOLUTION + COUNTS_PER_REVOLUTION)
        COUNTS_PER_REVOLUTION = count s /\
  Int.in_range (Z.rem (accumulator s) COUNTS_PER_REVOLUTION
                + COUNTS_PER_REVOLUTION).
Proof.
  intros H.
  apply loop_position_ok in H as (Hc & Hr & Hm); [|apply new_position_ok].
  split.
  - rewrite sign_corrected_rem by (unfold COUNTS_PER_REVOLUTION; lia).
    exact Hm.
  - pose proof (Z.rem_bound_abs (accumulator s) COUNTS_PER_REVOLUTION) as Hb.
    apply small_in_range. unfold COUNTS_PER_REVOLUTION in *. lia.
Qed.

End Position.

(** The run of the specification's end-to-end example ends with
    accumulator -10 and count 16374, and satisfies the invariant. *)
Lemma accumulator_invariant_witness :
  Z.rem (Z.rem (accumulator (fst spec_example_final)) COUNTS_PER_REVOLUTION
         + COUNTS_PER_REVOLUTION) COUNTS_PER_REVOLUTION
  = count (fst spec_example_final).
Proof.
  refine (proj1 (accumulator_invariant (P := avr)
            DEFAULT_ADDRESS UPDATE_INTERVAL RPM_THRESHOLD RPM_FILTER_SIZE
            3 spec_example_board
            (fst spec_example_final) (snd spec_example_final) _)).
  vm_compute. reflexivity.
Defined.


(** * The wrap-around correction *)

Section Wraparound.
Context {P : Platform}.

Lemma count_diff_forward_wrap : count_diff 0 16383 = 1.
Proof.
  destruct (count_diff_cases 0 16383) as (_ & H & _);
    unfold COUNTS_PER_REVOLUTION in *; lia.
Qed.

Lemma count_diff_backward_wrap : count_diff 16383 0 = -1.
Proof.
  destruct (count_diff_cases 16383 0) as (H & _ & _);
    unfold COUNTS_PER_REVOLUTION in *; lia.
Qed.

(** C1, as the code has it.  A poll that reads raw 0 while the stored
    count is 16383 computes the difference 1 (not -16383) and adds it to
    the accumulator in [int] arithmetic: the accumulator goes up by exactly
    1 whenever it is below the largest [int].  A poll that reads raw 16383
    while the stored count is 0 computes -1 and the accumulator goes down
    by exactly 1 whenever it is above the smallest [int]. *)
Theorem wraparound_step s b s' b' :
  Int.in_range (accumulator s) ->
  updateCount s b = Done (s', b') ->
  (count s = 16383 -> fst (acquire s b) = 0 ->
     count_diff (fst (acquire s b)) (count s) = 1 /\
     count s' = 0 /\
     accumulator s' = Int.add (accumulator s) 1 /\
     (accumulator s < Int.max_int -> accumulator s' = accumulator s + 1)) /\
  (count s = 0 -> fst (acquire s b) = 16383 ->
     count_diff (fst (acquire s b)) (count s) = -1 /\
     count s' = 16383 /\
     accumulator s' = Int.add (accumulator s) (-1) /\
     (Int.min_int < accumulator s -> accumulator s' = accumulator s - 1)).
Proof.
  intros Hr H. unfold Int.in_range in Hr.
  split; intros Hc Hnew; rewrite updateCount_sampled in H by lia;
    apply track_position in H as (Hc' & Ha' & _);
    rewrite Hnew, Hc in *.
  - rewrite count_diff_forward_wrap in *. repeat split; try assumption.
    intros Hlt. rewrite Ha'. apply wrap_small. unfold Int.in_range. lia.
  - rewrite count_diff_backward_wrap in *. repeat split; try assumption.
    intros Hlt. rewrite Ha'. unfold Int.add.
    replace (accumulator s + -1) with (accumulator s - 1) by ring.
    apply wrap_small. unfold Int.in_range. lia.
Qed.

(** C4. Half-revolution boundary: a poll that holds a sample adds the
    corrected difference to the accumulator, and the raw difference [d]
    is left as it is when it is exactly 8192 or exactly -8192; it is
    corrected only when it is strictly above 8192 (by [- 16384]) or
    strictly below -8192 (by [+ 16384]). *)
Theorem half_revolution_boundary s b s' b' :
  0 <= count s < COUNTS_PER_REVOLUTION ->
  0 <= fst (acquire s b) ->
  updateCount s b = Done (s', b') ->
  let d := fst (acquire s b) - count s in
  let diff := count_diff (fst (acquire s b)) (count s) in
  accumulator s' = Int.add (accumulator s) diff /\
  (d = 8192 -> diff = 8192) /\
  (d = -8192 -> diff = -8192) /\
  (8192 < d -> diff = d - COUNTS_PER_REVOLUTION) /\
  (d < -8192 -> diff = d + COUNTS_PER_REVOLUTION) /\
  (-8192 <= d <= 8192 -> diff = d).
Proof.
  intros Hc Hnew H. simpl.
  rewrite updateCount_sampled in H by exact Hnew.
  apply track_position in H as (_ & Ha' & _).
  assert (Hv : 0 <= fst (acquire s b) < COUNTS_PER_REVOLUTION)
    by (destruct (acquire_range s b); lia).
  destruct (count_diff_cases _ _ Hv Hc) as (Hhi & Hlo & Hmid).
  split; [exact Ha'|].
  split; [intros Hd; rewrite Hmid; lia|].
  split; [intros Hd; rewrite Hmid; lia|].
  split; [exact Hhi|]. split; [exact Hlo | exact Hmid].
Qed.

End Wraparound.

Lemma wraparound_step_witness :
  (count_diff (P := avr) 0 16383 = 1 /\
   accumulator (fst back_and_forth_final)
   = accumulator (fst back_and_forth_state) + 1) /\
  (count_diff (P := avr) 16383 0 = -1 /\
   accumulator (fst back_and_forth_state) = accumulator mt6701 - 1).
Proof.
  split.
  - pose proof (proj1 (wraparound_step (P := avr)
        (fst back_and_forth_state) (snd back_and_forth_state)
        (fst back_and_forth_final) (snd back_and_forth_final)
        ltac:(vm_compute; split; discriminate) ltac:(vm_compute; reflexivity))
        ltac:(reflexivity) ltac:(vm_compute; reflexivity)) as (Hd & _ & _ & Ha).
    split; [exact Hd | apply Ha; vm_compute; reflexivity].
  - pose proof (proj2 (wraparound_step (P := avr)
        mt6701 back_and_forth_board
        (fst back_and_forth_state) (snd back_and_forth_state)
        ltac:(vm_compute; split; discriminate) ltac:(vm_compute; reflexivity))
        ltac:(reflexivity) ltac:(vm_compute; reflexivity)) as (Hd & _ & _ & Ha).
    split; [exact Hd | apply Ha; vm_compute; reflexivity].
Defined.

(** On a 16-bit [int] nine polls take the accumulator to 32767 with the
    stored count at 16383; the tenth reads raw 0, the difference is 1, and
    the accumulator is -32768 afterwards: it did not go up by 1.  The
    mirror run ends at -32768 with the stored count at 0, and a poll that
    reads raw 16383 leaves the accumulator at 32767. *)
Lemma wraparound_overflow_avr :
  (loop (P := avr) 9 mt6701 two_turns_board = Done two_turns_state /\
   count (fst two_turns_state) = 16383 /\
   accumulator (fst two_turns_state) = 32767 /\
   fst (acquire (fst two_turns_state) (snd two_turns_state)) = 0 /\
   exists s' b',
     updateCount (P := avr) (fst two_turns_state) (snd two_turns_state)
     = Done (s', b') /\
     count s' = 0 /\ accumulator s' = -32768 /\
     accumulator s' <> accumulator (fst two_turns_state) + 1) /\
  (loop (P := avr) 9 mt6701 two_turns_back_board = Done two_turns_back_state /\
   count (fst two_turns_back_state) = 0 /\
   accumulator (fst two_turns_back_state) = -32768 /\
   fst (acquire (fst two_turns_back_state) (snd two_turns_back_state)) = 16383 /\
   exists s' b',
     updateCount (P := avr) (fst two_turns_back_state) (snd two_turns_back_state)
     = Done (s', b') /\
     count s' = 16383 /\ accumulator s' = 32767 /\
     accumulator s' <> accumulator (fst two_turns_back_state) - 1).
Proof.
  split; (split; [vm_compute; reflexivity|]);
    (split; [reflexivity|]); (split; [reflexivity|]);
    (split; [vm_compute; reflexivity|]);
    eexists; eexists; (split; [vm_compute; reflexivity|]);
    repeat split; discriminate.
Qed.

(** The end-to-end run of the specification: raw 10, 20, 16374 give the
    differences 10, 10 and -30, the accumulator ends at -10, and the angle
    is 11789280 * 2^-15 = 359.78 degrees. *)
Lemma spec_example_run :
  position (loop (P := avr) 3 mt6701 spec_example_board) = Some (16374, -10) /\
  getAngleDegrees (fst spec_example_final) = S754_finite false 11789280 (-15) /\
  getFullTurns (fst spec_example_final) = 0.
Proof. repeat split; vm_compute; reflexivity. Qed.

(** The largest 32-bit [int] is 16383 modulo a revolution as well, so the
    same poll meets the same overflow on a 32-bit board. *)
Lemma wraparound_overflow_arm32 :
  let s := mkMT6701 DEFAULT_ADDRESS UPDATE_INTERVAL 0 16383 2147483647
             F32.zero (rpmFilter mt6701) 0 RPM_FILTER_SIZE RPM_THRESHOLD in
  position_ok (P := arm32) s /\
  position (updateCount (P := arm32) s (board_of [sensor_bytes 0] [100]))
  = Some (0, -2147483648).
Proof.
  split.
  - split; [vm_compute; split; [discriminate | reflexivity]|].
    split; [vm_compute; split; discriminate | reflexivity].
  - vm_compute. reflexivity.
Qed.

Lemma half_revolution_boundary_witness :
  count_diff (P := avr) 8192 0 = 8192 /\ count_diff (P := avr) 0 8192 = -8192.
Proof.
  split.
  - exact (proj1 (proj2 (half_revolution_boundary (P := avr)
        mt6701 half_turn_board (fst half_turn_state) (snd half_turn_state)
        ltac:(vm_compute; split; [discriminate | reflexivity])
        ltac:(vm_compute; discriminate)
        ltac:(vm_compute; reflexivity))) ltac:(vm_compute; reflexivity)).
  - exact (proj1 (proj2 (proj2 (half_revolution_boundary (P := avr)
        (fst half_turn_state) (snd half_turn_state)
        (fst half_turn_final) (snd half_turn_final)
        ltac:(vm_compute; split; [discriminate | reflexivity])
        ltac:(vm_compute; discriminate)
        ltac:(vm_compute; reflexivity)))) ltac:(vm_compute; reflexivity)).
Defined.

(** * Failed reads *)

Section Retries.
Context {P : Platform}.

Lemma attempts_bound n rx k : (attempts n rx k <= n)%nat.
Proof.
  revert k. induction n as [|n IH]; intros k; simpl; [lia|].
  destruct (valid_reply (rx k)); [lia|]. specialize (IH (S k)). lia.
Qed.

Lemma attempts_positive n rx k : (1 <= attempts (S n) rx k)%nat.
Proof. simpl. destruct (valid_reply (rx k)); lia. Qed.

Lemma attempts_all_invalid n rx k :
  (forall i, (i < n)%nat -> valid_reply (rx (k + i)%nat) = false) ->
  attempts n rx k = n.
Proof.
  revert k. induction n as [|n IH]; intros k H; simpl; [reflexivity|].
  rewrite <- (Nat.add_0_r k) at 1. rewrite H by lia.
  f_equal. apply IH. intros i Hi.
  replace (S k + i)%nat with (k + S i)%nat by lia. apply H. lia.
Qed.

Lemma attempts_first_valid n rx k i :
  (i < n)%nat ->
  (forall j, (j < i)%nat -> valid_reply (rx (k + j)%nat) = false) ->
  valid_reply (rx (k + i)%nat) = true ->
  attempts n rx k = S i.
Proof.
  revert k i. induction n as [|n IH]; intros k i Hi Hbefore Hat; [lia|].
  simpl. destruct i as [|i].
  - rewrite Nat.add_0_r in Hat. rewrite Hat. reflexivity.
  - rewrite <- (Nat.add_0_r k) at 1. rewrite Hbefore by lia.
    f_equal. apply IH; [lia| |].
    + intros j Hj. replace (S k + j)%nat with (k + S j)%nat by lia.
      apply Hbefore. lia.
    + replace (S k + i)%nat with (k + S i)%nat by lia. exact Hat.
Qed.

(** The retry loop asks again only after a failure, and never touches the
    clock. *)
Lemma retry_board n s c b :
  snd (retry n s c b) =
  mkBoard (wire_rx b)
    (wire_requests b +
     (if (c <? 0)%Z then attempts n (wire_rx b) (wire_requests b) else 0))%nat
    (timer b) (timer_calls b).
Proof.
  revert c b. induction n as [|n IH]; intros c b.
  - simpl. destruct b; simpl. destruct (c <? 0); f_equal; lia.
  - simpl. destruct (c <? 0) eqn:Ec.
    + pose proof (readCount_board s b) as Hb.
      destruct (valid_reply (wire_rx b (wire_requests b))) eqn:Ev.
      * pose proof (readCount_valid s b Ev) as Hv.
        destruct (readCount s b) as [c' b1]. simpl in *. subst b1.
        rewrite IH. simpl.
        destruct (Z.ltb_spec c' 0); [lia|]. f_equal. lia.
      * pose proof (readCount_invalid s b Ev) as Hv.
        destruct (readCount s b) as [c' b1]. simpl in *. subst b1 c'.
        rewrite IH. simpl. f_equal. lia.
    + destruct b; simpl. f_equal. lia.
Qed.

Lemma retry_all_invalid n s c b :
  c < 0 ->
  (forall i, (i < n)%nat ->
     valid_reply (wire_rx b (wire_requests b + i)%nat) = false) ->
  fst (retry n s c b) < 0.
Proof.
  revert c b. induction n as [|n IH]; intros c b Hc H; simpl; [exact Hc|].
  destruct (Z.ltb_spec c 0); [|lia].
  pose proof (readCount_board s b) as Hb.
  pose proof (readCount_invalid s b) as Hv.
  rewrite <- (Nat.add_0_r (wire_requests b)) in Hv at 1.
  specialize (Hv (H 0%nat ltac:(lia))).
  destruct (readCount s b) as [c' b1]. simpl in *. subst b1 c'.
  apply IH; [lia|]. simpl. intros i Hi.
  rewrite <- Nat.add_succ_r. apply H. lia.
Qed.

Lemma acquire_board s b :
  snd (acquire s b) =
  mkBoard (wire_rx b)
    (wire_requests b + attempts 4 (wire_rx b) (wire_requests b))%nat
    (timer b) (timer_calls b).
Proof.
  unfold acquire.
  pose proof (readCount_board s b) as Hb.
  change (attempts 4 (wire_rx b) (wire_requests b)) with
    (if valid_reply (wire_rx b (wire_requests b)) then 1%nat
     else S (attempts 3 (wire_rx b) (S (wire_requests b)))).
  destruct (valid_reply (wire_rx b (wire_requests b))) eqn:Ev.
  - pose proof (readCount_valid s b Ev) as Hv.
    destruct (readCount s b) as [c b1]. cbn [fst snd] in Hb, Hv. subst b1.
    rewrite retry_board. cbn [wire_rx wire_requests timer timer_calls].
    destruct (Z.ltb_spec c 0); [lia|]. f_equal. lia.
  - pose proof (readCount_invalid s b Ev) as Hv.
    destruct (readCount s b) as [c b1]. cbn [fst snd] in Hb, Hv. subst b1 c.
    rewrite retry_board. cbn [wire_rx wire_requests timer timer_calls].
    change (-1 <? 0) with true. cbv iota. f_equal. lia.
Qed.

Lemma acquire_all_invalid s b :
  (forall i, (i < 4)%nat ->
     valid_reply (wire_rx b (wire_requests b + i)%nat) = false) ->
  fst (acquire s b) < 0.
Proof.
  intros H. unfold acquire.
  pose proof (readCount_board s b) as Hb.
  pose proof (readCount_invalid s b) as Hv.
  rewrite <- (Nat.add_0_r (wire_requests b)) in Hv at 1.
  specialize (Hv (H 0%nat ltac:(lia))).
  destruct (readCount s b) as [c b1]. cbn [fst snd] in Hb, Hv. subst b1 c.
  apply retry_all_invalid; [lia|].
  cbn [wire_rx wire_requests]. intros i Hi.
  rewrite Nat.add_succ_l, <- Nat.add_succ_r. apply H. lia.
Qed.

(** Whatever a poll does with the sample, the requests it has made are
    those of its reading phase. *)
Lemma updateCount_requests s b s' b' :
  updateCount s b = Done (s', b') ->
  wire_rx b' = wire_rx b /\
  wire_requests b'
  = (wire_requests b + attempts 4 (wire_rx b) (wire_requests b))%nat.
Proof.
  intros H. rewrite updateCount_eq in H.
  pose proof (acquire_board s b) as Hb.
  destruct (fst (acquire s b) <? 0).
  - injection H as _ <-. rewrite Hb. split; reflexivity.
  - apply track_inv in H as (s1 & _ & _ & ->). rewrite Hb.
    split; reflexivity.
Qed.

(** C3. Failure path of the poll.  A poll makes between one and four
    requests, as its reading phase and as the board it returns show: it
    stops at the first valid reply (request [i+1] when the replies before
    it were invalid), and makes four when none is valid.  When all four
    replies are invalid the poll returns with the driver object exactly as
    it was, without reading the clock, so every accessor returns what it
    returned before. *)
Theorem poll_failure_path s b :
  let k := wire_requests b in
  wire_requests (snd (acquire s b)) = (k + attempts 4 (wire_rx b) k)%nat /\
  (forall s' b', updateCount s b = Done (s', b') ->
     wire_rx b' = wire_rx b /\
     wire_requests b' = (k + attempts 4 (wire_rx b) k)%nat) /\
  (1 <= attempts 4 (wire_rx b) k <= 4)%nat /\
  (forall i, (i < 4)%nat ->
     (forall j, (j < i)%nat -> valid_reply (wire_rx b (k + j)%nat) = false) ->
     valid_reply (wire_rx b (k + i)%nat) = true ->
     attempts 4 (wire_rx b) k = S i /\
     0 <= fst (acquire s b) /\
     forall s' b', updateCount s b = Done (s', b') ->
       wire_requests b' = (k + S i)%nat /\ count s' = fst (acquire s b)) /\
  ((forall i, (i < 4)%nat -> valid_reply (wire_rx b (k + i)%nat) = false) ->
   attempts 4 (wire_rx b) k = 4%nat /\
   updateCount s b
   = Done (s, mkBoard (wire_rx b) (k + 4)%nat (timer b) (timer_calls b)) /\
   forall s' b', updateCount s b = Done (s', b') ->
     s' = s /\ observations s' = observations s).
Proof.
  cbv zeta. split; [rewrite acquire_board; reflexivity|].
  split; [apply updateCount_requests|].
  split; [split; [apply attempts_positive | apply attempts_bound]|].
  split.
  - intros i Hi Hb Hv.
    assert (Hn : attempts 4 (wire_rx b) (wire_requests b) = S i)
      by now apply attempts_first_valid.
    assert (Hok : 0 <= fst (acquire s b)).
    { destruct (Z_lt_le_dec (fst (acquire s b)) 0) as [Hneg|Hpos];
        [|exact Hpos].
      exfalso.
      assert (Hall : forall n c b0, c < 0 -> fst (retry n s c b0) < 0 ->
                forall j, (j < n)%nat ->
                  valid_reply (wire_rx b0 (wire_requests b0 + j)%nat) = false).
      { induction n as [|n IH]; intros c b0 Hc Hr j Hj; [lia|].
        cbn [retry] in Hr. destruct (Z.ltb_spec c 0); [|lia].
        pose proof (readCount_board s b0) as Hb0.
        destruct (valid_reply (wire_rx b0 (wire_requests b0))) eqn:Ev.
        - pose proof (readCount_valid s b0 Ev) as Hv0.
          destruct (readCount s b0) as [c' b1]. cbn [fst snd] in Hb0, Hv0.
          destruct n as [|n']; cbn [retry] in Hr;
            [cbn [fst] in Hr; lia|].
          destruct (Z.ltb_spec c' 0); [lia|]. cbn [fst] in Hr. lia.
        - pose proof (readCount_invalid s b0 Ev) as Hv0.
          destruct (readCount s b0) as [c' b1]. cbn [fst snd] in Hb0, Hv0.
          subst c' b1. destruct j as [|j].
          + rewrite Nat.add_0_r. exact Ev.
          + specialize (IH (-1) _ ltac:(lia) Hr j ltac:(lia)).
            cbn [wire_rx wire_requests] in IH.
            rewrite Nat.add_succ_l, <- Nat.add_succ_r in IH. exact IH. }
      assert (Hinv : valid_reply (wire_rx b (wire_requests b + i)%nat) = false).
      { apply (Hall 4%nat (-1) b ltac:(lia)); [exact Hneg | exact Hi]. }
      congruence. }
    split; [exact Hn|]. split; [exact Hok|].
    intros s' b' H.
    pose proof (updateCount_requests _ _ _ _ H) as [_ Hq].
    rewrite Hn in Hq. split; [exact Hq|].
    rewrite updateCount_sampled in H by exact Hok.
    apply track_position in H as (Hc & _). exact Hc.
  - intros Hall.
    assert (Hn : attempts 4 (wire_rx b) (wire_requests b) = 4%nat)
      by now apply attempts_all_invalid.
    assert (Hu : updateCount s b
                 = Done (s, mkBoard (wire_rx b) (wire_requests b + 4)%nat
                              (timer b) (timer_calls b))).
    { rewrite updateCount_failed by now apply acquire_all_invalid.
      rewrite acquire_board, Hn. reflexivity. }
    split; [exact Hn|]. split; [exact Hu|].
    intros s' b' H. rewrite Hu in H. injection H as <- <-. split; reflexivity.
Qed.

End Retries.

Lemma poll_failure_path_witness :
  updateCount (P := avr) (fst back_and_forth_state) silent_board
  = Done (fst back_and_forth_state,
          mkBoard (wire_rx silent_board) 4 (timer silent_board) 0) /\
  (wire_requests (snd late_reply_board_final) = 4%nat /\
   count (fst late_reply_board_final) = 10).
Proof.
  split.
  - refine (proj1 (proj2 (proj2 (proj2 (proj2 (proj2
        (poll_failure_path (P := avr) (fst back_and_forth_state) silent_board))))
        _))).
    intros [|[|[|[|i]]]] _; reflexivity.
  - refine (proj2 (proj2 (proj1 (proj2 (proj2 (proj2
        (poll_failure_path (P := avr) mt6701 late_reply_board)))) 3%nat _ _ _))
        (fst late_reply_board_final) (snd late_reply_board_final) _).
    + lia.
    + intros [|[|[|j]]] Hj; try reflexivity. lia.
    + reflexivity.
    + vm_compute. reflexivity.
Defined.

(** * The rate of a tick *)

Section Rate.
Context {P : Platform}.

Lemma SFcompare_swap x y :
  SFcompare y x = option_map CompOpp (SFcompare x y).
Proof.
  destruct x as [sx|sx| |sx mx ex], y as [sy|sy| |sy my ey]; simpl;
    try reflexivity; try (destruct sx; reflexivity);
    try (destruct sy; reflexivity); try (destruct sx, sy; reflexivity).
  rewrite (Z.compare_antisym ex ey).
  change (PosDef.Pos.compare_cont Eq my mx)
    with (Pos.compare_cont (CompOpp Eq) my mx).
  rewrite <- (Pos.compare_cont_antisym mx my Eq).
  change (PosDef.Pos.compare_cont Eq mx my) with (Pos.compare_cont Eq mx my).
  destruct sx, sy; simpl; try reflexivity;
    destruct (ex ?= ey)%Z; simpl; reflexivity.
Qed.

(** [y <= x] excludes [x < y], also for infinities and NaN. *)
Lemma leb_not_ltb x y : F32.leb y x = true -> F32.ltb x y = false.
Proof.
  unfold F32.leb, F32.ltb, SFleb, SFltb. rewrite (SFcompare_swap y x).
  destruct (SFcompare y x) as [[]|]; simpl; congruence.
Qed.

Lemma getRPM_loop_ext n i s s' sum :
  rpmFilter s' = rpmFilter s -> rpmFilterSize s' = rpmFilterSize s ->
  getRPM_loop n i s' sum = getRPM_loop n i s sum.
Proof.
  intros Hf Hs. revert i sum. induction n as [|n IH]; intros i sum; simpl.
  - reflexivity.
  - rewrite Hf, Hs. destruct (i <? rpmFilterSize s); [apply IH | reflexivity].
Qed.

(** [getRPM] reads the filter buffer and its size, nothing else. *)
Lemma getRPM_ext s s' :
  rpmFilter s' = rpmFilter s -> rpmFilterSize s' = rpmFilterSize s ->
  getRPM s' = getRPM s.
Proof.
  intros Hf Hs. unfold getRPM. rewrite Hs.
  rewrite (getRPM_loop_ext _ _ s s') by assumption. reflexivity.
Qed.

Lemma updateCount_with_sample s b :
  0 <= poll_count s b ->
  updateCount s b =
  let* s1 := rate_step (poll_diff s b) (poll_elapsed s b) s in
  Done (commit (poll_diff s b) (poll_count s b) (poll_time s b) s1,
        snd (millis (snd (acquire s b)))).
Proof.
  intros H. rewrite updateCount_sampled by exact H. reflexivity.
Qed.

Lemma rate_step_no_time d s : rate_step d 0 s = Done s.
Proof. reflexivity. Qed.

Lemma rate_step_rejected d e s :
  0 < e ->
  F32.ltb (F32.abs (rpm_of d e)) (F32.of_Z (rpmThreshold s)) = false ->
  rate_step d e s = Done (set_rpm (rpm_of d e) s).
Proof.
  intros He Hr. unfold rate_step.
  destruct (Z.gtb_spec e 0); [|lia].
  cbn [rpm set_rpm rpmThreshold]. rewrite Hr. reflexivity.
Qed.

Lemma rate_step_accepted d e s :
  0 < e ->
  F32.ltb (F32.abs (rpm_of d e)) (F32.of_Z (rpmThreshold s)) = true ->
  rate_step d e s = updateRPMFilter (rpm_of d e) (set_rpm (rpm_of d e) s).
Proof.
  intros He Hr. unfold rate_step.
  destruct (Z.gtb_spec e 0); [|lia].
  cbn [rpm set_rpm rpmThreshold]. rewrite Hr. reflexivity.
Qed.

(** C5. Zero elapsed time: a poll that holds a sample and reads the clock
    value of the last update skips the rate computation (there is no
    division by the elapsed time), completes, and leaves the [rpm] field,
    the filter buffer, its write index and so [getRPM] as they were, while
    accumulator, stored count and timestamp are updated. *)
Theorem zero_elapsed_safe s b :
  0 <= poll_count s b ->
  poll_elapsed s b = 0 ->
  rate_step (poll_diff s b) (poll_elapsed s b) s = Done s /\
  exists s' b',
    updateCount s b = Done (s', b') /\
    rpm s' = rpm s /\
    rpmFilter s' = rpmFilter s /\
    rpmFilterIndex s' = rpmFilterIndex s /\
    getRPM s' = getRPM s /\
    accumulator s' = Int.add (accumulator s) (poll_diff s b) /\
    count s' = poll_count s b /\
    lastUpdateTime s' = poll_time s b.
Proof.
  intros Hc He. rewrite He. split; [apply rate_step_no_time|].
  eexists; eexists. split.
  - rewrite updateCount_with_sample by exact Hc.
    rewrite He, rate_step_no_time. reflexivity.
  - repeat split. apply getRPM_ext; reflexivity.
Qed.

(** A poll whose rate fails the threshold test: the rate goes into the
    [rpm] field, the position is committed, the filter is not touched. *)
Lemma updateCount_rejected s b :
  0 <= poll_count s b ->
  0 < poll_elapsed s b ->
  F32.leb (F32.of_Z (rpmThreshold s)) (F32.abs (poll_rate s b)) = true ->
  updateCount s b =
  Done (commit (poll_diff s b) (poll_count s b) (poll_time s b)
          (set_rpm (poll_rate s b) s),
        snd (millis (snd (acquire s b)))).
Proof.
  intros Hc He Hr. apply leb_not_ltb in Hr.
  rewrite updateCount_with_sample by exact Hc.
  unfold poll_rate in *. rewrite rate_step_rejected by assumption.
  reflexivity.
Qed.

(** C9, as the code has it.  A poll that holds a sample, sees time pass
    and computes a rate with threshold <= |rate| completes; the rejected
    rate changes neither the filter buffer nor its write index nor
    [getRPM], but it is what the [rpm] field holds afterwards; and the
    accumulator, the stored count and the timestamp are updated. *)
Theorem rejected_sample_frame s b :
  0 <= poll_count s b ->
  0 < poll_elapsed s b ->
  F32.leb (F32.of_Z (rpmThreshold s)) (F32.abs (poll_rate s b)) = true ->
  exists s' b',
    updateCount s b = Done (s', b') /\
    rpmFilter s' = rpmFilter s /\
    rpmFilterIndex s' = rpmFilterIndex s /\
    getRPM s' = getRPM s /\
    rpm s' = poll_rate s b /\
    accumulator s' = Int.add (accumulator s) (poll_diff s b) /\
    count s' = poll_count s b /\
    lastUpdateTime s' = poll_time s b.
Proof.
  intros Hc He Hr.
  eexists; eexists. split; [now apply updateCount_rejected|].
  repeat split. apply getRPM_ext; reflexivity.
Qed.

End Rate.

Lemma zero_elapsed_safe_witness :
  rate_step (P := avr)
    (poll_diff (P := avr) (fst same_time_state) (snd same_time_state))
    (poll_elapsed (fst same_time_state) (snd same_time_state))
    (fst same_time_state)
  = Done (fst same_time_state).
Proof.
  refine (proj1 (zero_elapsed_safe (P := avr)
            (fst same_time_state) (snd same_time_state) _ _)).
  - vm_compute. discriminate.
  - vm_compute. reflexivity.
Defined.

Lemma rejected_sample_frame_witness :
  exists s' b',
    updateCount (P := avr) mt6701 jump_board = Done (s', b') /\
    rpmFilter s' = rpmFilter mt6701 /\
    rpmFilterIndex s' = rpmFilterIndex mt6701 /\
    getRPM s' = getRPM mt6701 /\
    rpm s' = poll_rate (P := avr) mt6701 jump_board /\
    accumulator s' = Int.add (P := avr) (accumulator mt6701)
                       (poll_diff (P := avr) mt6701 jump_board) /\
    count s' = poll_count mt6701 jump_board /\
    lastUpdateTime s' = poll_time mt6701 jump_board.
Proof.
  refine (rejected_sample_frame (P := avr) mt6701 jump_board _ _ _).
  - vm_compute. discriminate.
  - vm_compute. reflexivity.
  - vm_compute. reflexivity.
Defined.

(** A freshly constructed driver with the default threshold of 1000 reads
    raw 8000 ten milliseconds after start.  The rate, 2929.6875 rpm, is
    rejected and the filter keeps its zeros, but the [rpm] field, 0.0
    before the poll, holds the rejected rate after it. *)
Lemma rejected_rate_is_stored :
  poll_count mt6701 jump_board = 8000 /\
  poll_elapsed mt6701 jump_board = 10 /\
  poll_rate (P := avr) mt6701 jump_board = S754_finite false 12000000 (-12) /\
  F32.leb (F32.of_Z (rpmThreshold mt6701))
          (F32.abs (poll_rate (P := avr) mt6701 jump_board)) = true /\
  exists s' b',
    updateCount (P := avr) mt6701 jump_board = Done (s', b') /\
    rpmFilter s' = rpmFilter mt6701 /\
    rpm mt6701 = S754_zero false /\
    rpm s' = S754_finite false 12000000 (-12) /\
    rpm s' <> rpm mt6701.
Proof.
  repeat (split; [vm_compute; reflexivity|]).
  eexists; eexists. split; [vm_compute; reflexivity|].
  repeat split. discriminate.
Qed.

(** * Outliers *)

Section Outliers.
Context {P : Platform}.

Lemma new_filter_ok a u t f : filter_ok (new a u t f).
Proof.
  unfold filter_ok. cbn [rpmFilter new].
  apply Forall_replicate. left. reflexivity.
Qed.

Lemma updateRPMFilter_filter_ok x s s1 :
  filter_ok s ->
  F32.ltb (F32.abs x) (F32.of_Z (rpmThreshold s)) = true ->
  updateRPMFilter x s = Done s1 -> filter_ok s1.
Proof.
  unfold filter_ok. intros Hok Hx H.
  apply updateRPMFilter_inv in H as (_ & _ & ->).
  cbn [rpmFilter rpmThreshold]. apply Forall_insert; [exact Hok | now right].
Qed.

Lemma rate_step_filter_ok d e s s1 :
  filter_ok s -> rate_step d e s = Done s1 -> filter_ok s1.
Proof.
  unfold rate_step. intros Hok.
  destruct (e >? 0); [|intros [= <-]; exact Hok].
  destruct (F32.ltb _ _) eqn:Hlt.
  - intros H. eapply updateRPMFilter_filter_ok; [| |exact H]; assumption.
  - intros [= <-]. exact Hok.
Qed.

Lemma updateCount_filter_ok t s b s' b' :
  filter_ok s /\ rpmThreshold s = t ->
  updateCount s b = Done (s', b') ->
  filter_ok s' /\ rpmThreshold s' = t.
Proof.
  intros [Hok Ht] H. rewrite updateCount_eq in H.
  destruct (fst (acquire s b) <? 0).
  - injection H as <- <-. now split.
  - pose proof (track_position _ _ _ _ _ H) as (_ & _ & _ & _ & Ht' & _).
    apply track_inv in H as (s1 & Hr & -> & _).
    split; [|cbn [rpmThreshold commit] in *; congruence].
    apply rate_step_filter_ok in Hr; [|exact Hok]. exact Hr.
Qed.

(** C6. Outlier rejection.  A poll whose rate satisfies
    threshold <= |rate| writes nothing into the filter buffer, moves no
    write index and leaves [getRPM] as it was; and after any run of polls
    from a freshly constructed driver the buffer holds no value with
    threshold <= |value| other than the zeros it was initialised with. *)
Theorem outlier_never_stored :
  (forall s b s' b',
     0 <= poll_count s b ->
     0 < poll_elapsed s b ->
     F32.leb (F32.of_Z (rpmThreshold s)) (F32.abs (poll_rate s b)) = true ->
     updateCount s b = Done (s', b') ->
     rpmFilter s' = rpmFilter s /\
     rpmFilterIndex s' = rpmFilterIndex s /\
     getRPM s' = getRPM s) /\
  (forall a u t f n b s b',
     loop n (new a u t f) b = Done (s, b') ->
     forall x, In x (rpmFilter s) ->
       F32.leb (F32.of_Z t) (F32.abs x) = true -> x = F32.zero).
Proof.
  split.
  - intros s b s' b' Hc He Hr H.
    rewrite updateCount_rejected in H by assumption.
    injection H as <- <-. repeat split. apply getRPM_ext; reflexivity.
  - intros a u t f n b s b' H x Hx Hge.
    apply (loop_invariant (fun s => filter_ok s /\ rpmThreshold s = t))
      in H as [Hok Ht].
    + unfold filter_ok in Hok. rewrite List.Forall_forall in Hok.
      destruct (Hok x Hx) as [E|Hlt]; [exact E|].
      apply leb_not_ltb in Hge. rewrite Ht in Hlt. congruence.
    + apply updateCount_filter_ok.
    + split; [apply new_filter_ok | reflexivity].
Qed.

End Outliers.

Lemma outlier_never_stored_witness :
  rpmFilter (fst jump_final) = rpmFilter mt6701 /\
  S754_zero false = F32.zero.
Proof.
  split.
  - refine (proj1 (proj1 (outlier_never_stored (P := avr))
              mt6701 jump_board (fst jump_final) (snd jump_final) _ _ _ _)).
    + vm_compute. discriminate.
    + vm_compute. reflexivity.
    + vm_compute. reflexivity.
    + vm_compute. reflexivity.
  - refine (proj2 (outlier_never_stored (P := avr))
              DEFAULT_ADDRESS UPDATE_INTERVAL 0 RPM_FILTER_SIZE
              3%nat spec_example_board
              (fst zero_threshold_final) (snd zero_threshold_final) _
              (S754_zero false) _ _).
    + vm_compute. reflexivity.
    + vm_compute. left. reflexivity.
    + vm_compute. reflexivity.
Defined.

(** * The filter window *)

Section Window.
Context {P : Platform}.

Lemma new_capacity a u t f :
  rpmFilterSize (new a u t f) = Z.min f RPM_FILTER_SIZE.
Proof.
  cbn [new rpmFilterSize]. destruct (Z.gtb_spec f RPM_FILTER_SIZE); lia.
Qed.

Lemma new_window_ok a u t f : 1 <= f -> window_ok (new a u t f).
Proof.
  intros Hf. unfold window_ok. rewrite new_capacity.
  cbn [new rpmFilterIndex rpmFilter]. unfold RPM_FILTER_SIZE.
  split; [lia|]. split; [lia|]. split; [apply length_replicate|].
  intros i Hi. apply lookup_replicate_2. lia.
Qed.

Lemma next_index_in_window i n :
  0 <= i < n -> n <= RPM_FILTER_SIZE ->
  0 <= Z.rem (Int.add i 1) n < n.
Proof.
  unfold RPM_FILTER_SIZE. intros Hi Hn. unfold Int.add.
  rewrite wrap_small by (apply small_in_range; lia).
  apply Z.rem_bound_pos; lia.
Qed.

Lemma updateRPMFilter_window_ok x s :
  window_ok s ->
  exists s1,
    updateRPMFilter x s = Done s1 /\
    window_ok s1 /\
    rpmFilterSize s1 = rpmFilterSize s /\
    rpmFilter s1 = <[Z.to_nat (rpmFilterIndex s) := x]> (rpmFilter s) /\
    rpmFilterIndex s1 = Z.rem (rpmFilterIndex s + 1) (rpmFilterSize s).
Proof.
  intros (Hs & Hi & Hl & Hz). unfold updateRPMFilter.
  destruct (Z.leb_spec 0 (rpmFilterIndex s)); [|lia].
  destruct (Z.ltb_spec (rpmFilterIndex s) RPM_FILTER_SIZE); [|lia].
  destruct (Z.eqb_spec (rpmFilterSize s) 0); [lia|].
  cbn [andb]. eexists. split; [reflexivity|].
  unfold window_ok. cbn [rpmFilterSize rpmFilterIndex rpmFilter].
  split; [|split; [reflexivity|split; [reflexivity|]]].
  2:{ unfold Int.add. unfold RPM_FILTER_SIZE in *.
      rewrite wrap_small by (apply small_in_range; lia). reflexivity. }
  split; [exact Hs|].
  split; [apply next_index_in_window; lia|].
  split; [rewrite length_insert; exact Hl|].
  intros i Hr. rewrite list_lookup_insert_ne by lia. apply Hz. exact Hr.
Qed.

Lemma set_rpm_window_ok r s : window_ok s -> window_ok (set_rpm r s).
Proof. intros H. exact H. Qed.

Lemma rate_step_window_ok d e s :
  window_ok s ->
  exists s1,
    rate_step d e s = Done s1 /\ window_ok s1 /\
    rpmFilterSize s1 = rpmFilterSize s.
Proof.
  intros Hok. unfold rate_step.
  destruct (e >? 0); [|now exists s].
  destruct (F32.ltb _ _).
  - destruct (updateRPMFilter_window_ok (rpm (set_rpm (rpm_of d e) s))
                (set_rpm (rpm_of d e) s) (set_rpm_window_ok _ _ Hok))
      as (s1 & H1 & Hok1 & Hs1 & _ & _).
    exists s1. split; [exact H1|]. split; [exact Hok1 | exact Hs1].
  - eexists. split; [reflexivity|]. split; [exact Hok | reflexivity].
Qed.

Lemma updateCount_window_ok s b :
  window_ok s ->
  exists s' b',
    updateCount s b = Done (s', b') /\ window_ok s' /\
    rpmFilterSize s' = rpmFilterSize s.
Proof.
  intros Hok. rewrite updateCount_eq.
  destruct (fst (acquire s b) <? 0).
  - exists s, (snd (acquire s b)).
    split; [reflexivity|]. split; [exact Hok | reflexivity].
  - unfold track. cbn [millis fst snd].
    destruct (rate_step_window_ok
                (count_diff (fst (acquire s b)) (count s))
                (ULong.sub
                   (ULong.wrap (timer (snd (acquire s b))
                                  (timer_calls (snd (acquire s b)))))
                   (lastUpdateTime s)) s Hok) as (s1 & H1 & Hok1 & Hs1).
    rewrite H1. cbn [bind]. eexists; eexists. split; [reflexivity|].
    split; [exact Hok1 | exact Hs1].
Qed.

Lemma loop_window_ok n s b :
  window_ok s ->
  exists s' b',
    loop n s b = Done (s', b') /\ window_ok s' /\
    rpmFilterSize s' = rpmFilterSize s.
Proof.
  revert s b. induction n as [|n IH]; intros s b Hok.
  - exists s, b. split; [reflexivity|]. split; [exact Hok | reflexivity].
  - destruct (updateCount_window_ok s b Hok) as (s1 & b1 & H1 & Hok1 & Hs1).
    destruct (IH s1 b1 Hok1) as (s' & b' & H' & Hok' & Hs').
    exists s', b'. cbn [loop]. rewrite H1. cbn [bind fst snd].
    split; [exact H'|]. split; [exact Hok' | congruence].
Qed.

(** C10. Filter-index invariant: a driver constructed with a filter size
    [f] in [1, RPM_FILTER_SIZE] completes every run of polls, and after
    it the capacity is still [f], the write index is in [0, f), the array
    has its ten slots, the slots from [f] on still hold their initial
    zeros, and the next filter write completes and stores at the write
    index. *)
Theorem filter_index_in_window a u t f n b :
  1 <= f <= RPM_FILTER_SIZE ->
  exists s b',
    loop n (new a u t f) b = Done (s, b') /\
    rpmFilterSize s = f /\
    0 <= rpmFilterIndex s < f /\
    length (rpmFilter s) = Z.to_nat RPM_FILTER_SIZE /\
    (forall i : nat,
       (Z.to_nat f <= i < Z.to_nat RPM_FILTER_SIZE)%nat ->
       rpmFilter s !! i = Some F32.zero) /\
    (forall x, exists s1,
       updateRPMFilter x s = Done s1 /\
       rpmFilter s1 = <[Z.to_nat (rpmFilterIndex s) := x]> (rpmFilter s)).
Proof.
  intros Hf. pose proof (new_window_ok a u t f ltac:(lia)) as Hok.
  pose proof (new_capacity a u t f) as Hsz.
  rewrite Z.min_l in Hsz by lia.
  destruct (loop_window_ok n _ b Hok) as (s & b' & H & Hok' & Hs).
  exists s, b'. split; [exact H|].
  rewrite Hsz in Hs. destruct Hok' as (Hc & Hi & Hl & Hz).
  rewrite Hs in *. repeat split; try assumption; try lia.
  intros x.
  destruct (updateRPMFilter_window_ok x s) as (s1 & H1 & _ & _ & Hw & _).
  - unfold window_ok. rewrite Hs. repeat split; try assumption; lia.
  - exists s1. split; assumption.
Qed.

End Window.

Lemma filter_index_in_window_witness :
  exists s b',
    loop (P := avr) 3 mt6701 spec_example_board = Done (s, b') /\
    rpmFilterSize s = 10 /\ 0 <= rpmFilterIndex s < 10.
Proof.
  destruct (filter_index_in_window (P := avr)
              DEFAULT_ADDRESS UPDATE_INTERVAL RPM_THRESHOLD RPM_FILTER_SIZE
              3 spec_example_board ltac:(vm_compute; split; discriminate))
    as (s & b' & H & Hs & Hi & _).
  exists s, b'. split; [exact H|]. split; [exact Hs | exact Hi].
Defined.

(** * The capacity the constructor stores *)

Section Capacity.
Context {P : Platform}.

Lemma count_diff_small c :
  0 <= c <= 8192 -> count_diff c 0 = c.
Proof.
  intros Hc.
  destruct (count_diff_cases c 0) as (_ & _ & H);
    unfold COUNTS_PER_REVOLUTION; lia.
Qed.

(** C8 at its failing input.  The constructor only clamps from above: a
    requested size of at most [RPM_FILTER_SIZE] is stored as it is, so a
    request of 0 stores capacity 0.  With it, every filter write takes a
    remainder by zero, [getRPM] is 0/0 = NaN, and the first poll of the
    specification's example run does not complete. *)
Theorem zero_capacity_is_stored a u t :
  (forall f, rpmFilterSize (new a u t f) <= RPM_FILTER_SIZE) /\
  (forall f, f <= RPM_FILTER_SIZE -> rpmFilterSize (new a u t f) = f) /\
  rpmFilterSize (new a u t 0) = 0 /\
  (forall x, updateRPMFilter x (new a u t 0) = Undefined) /\
  getRPM (new a u t 0) = S754_nan /\
  updateCount (new DEFAULT_ADDRESS UPDATE_INTERVAL RPM_THRESHOLD 0)
    spec_example_board = Undefined.
Proof.
  split; [|split].
  - intros f. cbn [new rpmFilterSize].
    destruct (Z.gtb_spec f RPM_FILTER_SIZE); lia.
  - intros f Hf. cbn [new rpmFilterSize].
    destruct (Z.gtb_spec f RPM_FILTER_SIZE); lia.
  - split; [reflexivity|]. split; [reflexivity|]. split; [reflexivity|].
    set (s := new DEFAULT_ADDRESS UPDATE_INTERVAL RPM_THRESHOLD 0).
    assert (Hc : poll_count s spec_example_board = 10) by reflexivity.
    assert (He : poll_elapsed s spec_example_board = 100) by reflexivity.
    assert (Hd : poll_diff s spec_example_board = 10).
    { unfold poll_diff. rewrite Hc. apply count_diff_small. lia. }
    rewrite updateCount_with_sample by (rewrite Hc; lia).
    rewrite Hd, He. rewrite rate_step_accepted; [reflexivity|lia|].
    vm_compute. reflexivity.
Qed.

End Capacity.

(** * The moving average over the window *)

Section Average.
Context {P : Platform}.

Lemma getRPM_loop_fold n i s sum :
  0 <= i -> i + Z.of_nat n = rpmFilterSize s ->
  (Z.to_nat (rpmFilterSize s) <= length (rpmFilter s))%nat ->
  getRPM_loop n i s sum
  = fold_left F32.add (take n (drop (Z.to_nat i) (rpmFilter s))) sum.
Proof.
  revert i sum. induction n as [|n IH]; intros i sum Hi Hn Hl.
  - reflexivity.
  - cbn [getRPM_loop]. destruct (Z.ltb_spec i (rpmFilterSize s)); [|lia].
    destruct (lookup_lt_is_Some_2 (rpmFilter s) (Z.to_nat i) ltac:(lia))
      as [x Hx].
    rewrite Hx, (drop_S _ _ _ Hx). cbn [default take fold_left].
    rewrite IH by lia. rewrite Z2Nat.inj_add by lia. simpl (Z.to_nat 1).
    rewrite Nat.add_1_r. reflexivity.
Qed.

(** [getRPM] is the mean of the first [rpmFilterSize] slots. *)
Lemma getRPM_mean s :
  0 <= rpmFilterSize s ->
  (Z.to_nat (rpmFilterSize s) <= length (rpmFilter s))%nat ->
  getRPM s = mean (take (Z.to_nat (rpmFilterSize s)) (rpmFilter s)).
Proof.
  intros Hs Hl. unfold getRPM, mean.
  rewrite getRPM_loop_fold by lia.
  rewrite length_take_le by exact Hl. rewrite Z2Nat.id by exact Hs.
  reflexivity.
Qed.

Lemma feed_app xs ys s :
  feed (xs ++ ys) s = let* s1 := feed xs s in feed ys s1.
Proof.
  revert s. induction xs as [|x xs IH]; intros s; cbn [feed app bind].
  - reflexivity.
  - destruct (updateRPMFilter x s) as [s1|]; cbn [bind]; [apply IH|reflexivity].
Qed.

(** Feeding samples while the window has room writes them side by side
    from the write index on. *)
Lemma feed_fill xs : forall s (i : nat),
  window_ok s ->
  rpmFilterIndex s = Z.rem (Z.of_nat i) (rpmFilterSize s) ->
  (i + length xs <= Z.to_nat (rpmFilterSize s))%nat ->
  exists s',
    feed xs s = Done s' /\ window_ok s' /\
    rpmFilterSize s' = rpmFilterSize s /\
    rpmFilter s' = take i (rpmFilter s) ++ xs ++ drop (i + length xs) (rpmFilter s) /\
    rpmFilterIndex s' = Z.rem (Z.of_nat (i + length xs)) (rpmFilterSize s).
Proof.
  induction xs as [|x xs IH]; intros s i Hok Hi Hlen.
  - exists s. cbn [feed length app]. rewrite Nat.add_0_r, take_drop.
    split; [reflexivity|]. split; [exact Hok|]. split; [reflexivity|].
    split; [reflexivity | exact Hi].
  - cbn [length] in Hlen.
    pose proof Hok as (Hs & Hidx & Hl & _).
    rewrite Z.rem_small in Hi by lia.
    destruct (updateRPMFilter_window_ok x s Hok)
      as (s1 & H1 & Hok1 & Hs1 & Hf1 & Hi1).
    destruct (IH s1 (S i) Hok1) as (s' & H' & Hok' & Hs' & Hf' & Hi').
    { rewrite Hi1, Hs1, Hi. f_equal. lia. }
    { rewrite Hs1. lia. }
    exists s'. cbn [feed]. rewrite H1. cbn [bind].
    split; [exact H'|]. split; [exact Hok'|]. split; [congruence|].
    unfold RPM_FILTER_SIZE in *.
    split.
    + rewrite Hf', Hf1, Hi, Nat2Z.id.
      rewrite (take_S_r _ i x) by (apply list_lookup_insert_eq; lia).
      rewrite take_insert_ge by lia. rewrite drop_insert_lt by lia.
      rewrite <- app_assoc. cbn [length app].
      rewrite Nat.add_succ_r. reflexivity.
    + rewrite Hi', Hs1. cbn [length]. rewrite Nat.add_succ_r. reflexivity.
Qed.

(** A fresh driver of capacity [N] fed exactly [N] samples holds them in
    its window, in order, and the write index is back at slot 0. *)
Lemma feed_fresh_full a u t f xs :
  1 <= f ->
  length xs = Z.to_nat (rpmFilterSize (new a u t f)) ->
  exists s,
    feed xs (new a u t f) = Done s /\ window_ok s /\
    rpmFilterSize s = rpmFilterSize (new a u t f) /\
    take (length xs) (rpmFilter s) = xs /\
    rpmFilterIndex s = 0.
Proof.
  intros Hf Hlen.
  pose proof (new_window_ok a u t f Hf) as Hok.
  pose proof Hok as (Hs & _).
  destruct (feed_fill xs (new a u t f) 0 Hok) as (s & H & Hok' & Hs' & Hb & Hi).
  { reflexivity. }
  { lia. }
  exists s. split; [exact H|]. split; [exact Hok'|]. split; [exact Hs'|].
  split.
  - rewrite Hb, take_0. cbn [app]. apply take_app_length.
  - rewrite Hi, Nat.add_0_l, Hlen, Z2Nat.id by lia.
    apply Z.rem_same. lia.
Qed.

Lemma same_filter_refl s : same_filter s s.
Proof. repeat split. Qed.

Lemma same_filter_set_rpm r s : same_filter (set_rpm r s) s.
Proof. repeat split. Qed.

Lemma same_filter_trans s t r :
  same_filter s t -> same_filter t r -> same_filter s r.
Proof. intros (? & ? & ?) (? & ? & ?). repeat split; congruence. Qed.

Lemma same_filter_getRPM s t : same_filter s t -> getRPM s = getRPM t.
Proof. intros (Hf & _ & Hs). now apply getRPM_ext. Qed.

(** A filter write reads the filter and nothing else. *)
Lemma same_filter_updateRPMFilter x s t s1 :
  same_filter s t -> updateRPMFilter x s = Done s1 ->
  exists t1, updateRPMFilter x t = Done t1 /\ same_filter s1 t1.
Proof.
  intros (Hf & Hi & Hs) H. unfold updateRPMFilter in *.
  rewrite <- Hi, <- Hs.
  destruct ((0 <=? rpmFilterIndex s) && (rpmFilterIndex s <? RPM_FILTER_SIZE));
    [|discriminate].
  destruct (rpmFilterSize s =? 0); [discriminate|].
  injection H as <-. eexists. split; [reflexivity|].
  unfold same_filter. cbn [rpmFilter rpmFilterIndex rpmFilterSize].
  rewrite Hf. repeat split.
Qed.

(** What one poll does to the filter: one write of its rate when it
    accepts it, nothing otherwise. *)
Lemma updateCount_filter s b s' b' :
  updateCount s b = Done (s', b') ->
  if poll_accepts s b
  then exists s1, updateRPMFilter (poll_rate s b) s = Done s1 /\ same_filter s' s1
  else same_filter s' s.
Proof.
  intros H. unfold poll_accepts.
  destruct (Z.leb_spec 0 (poll_count s b)) as [Hc|Hc]; cbn [andb].
  - rewrite updateCount_with_sample in H by exact Hc.
    fold (poll_rate s b).
    destruct (Z.gtb_spec (poll_elapsed s b) 0) as [He|He]; cbn [andb].
    + destruct (F32.ltb _ _) eqn:Hlt.
      * unfold poll_rate in *.
        rewrite rate_step_accepted in H by (lia || exact Hlt).
        destruct (updateRPMFilter _ (set_rpm _ s)) as [s1|] eqn:H1;
          cbn [bind] in H; [|discriminate].
        injection H as <- <-.
        destruct (same_filter_updateRPMFilter _ _ s _
                    (same_filter_set_rpm _ s) H1) as (t1 & Ht1 & Hsame).
        exists t1. split; [exact Ht1 | exact Hsame].
      * unfold poll_rate in *.
        rewrite rate_step_rejected in H by (lia || exact Hlt).
        injection H as <- <-. repeat split.
    + unfold rate_step in H. destruct (Z.gtb_spec (poll_elapsed s b) 0); [lia|].
      injection H as <- <-. repeat split.
  - rewrite updateCount_failed in H by exact Hc.
    injection H as <- <-. apply same_filter_refl.
Qed.

(** The filter after a run of polls is the filter after feeding it the
    rates the run accepted. *)
Lemma loop_feed n : forall s b t s' b',
  same_filter s t -> loop n s b = Done (s', b') ->
  exists t', feed (accepted_rates n s b) t = Done t' /\ same_filter s' t'.
Proof.
  induction n as [|n IH]; intros s b t s' b' Hst H.
  - injection H as <- <-. exists t. split; [reflexivity | exact Hst].
  - cbn [loop accepted_rates] in *.
    destruct (updateCount s b) as [[s1 b1]|] eqn:H1; cbn [bind fst snd] in H;
      [|discriminate].
    pose proof (updateCount_filter _ _ _ _ H1) as Hstep.
    rewrite feed_app.
    destruct (poll_accepts s b).
    + destruct Hstep as (s2 & H2 & Hsame).
      destruct (same_filter_updateRPMFilter _ _ t _ Hst H2) as (t2 & Ht2 & Hs2).
      cbn [feed]. rewrite Ht2. cbn [bind].
      apply (IH s1 b1 t2 s' b'); [|exact H].
      eapply same_filter_trans; eassumption.
    + cbn [feed bind]. apply (IH s1 b1 t s' b'); [|exact H].
      eapply same_filter_trans; eassumption.
Qed.

(** C7. Filter window.  On a driver constructed with a requested size
    [f >= 1] the capacity is [N = min f RPM_FILTER_SIZE].  When the polls
    of a run accepted exactly the [N] rates [xs], the window holds [xs] in
    order and [getRPM] is their mean; when they accepted one more rate [x]
    after them, [x] has overwritten the oldest, the window holds [x] and
    the rest of [xs], and [getRPM] is the mean of those. *)
Theorem filter_window a u t f n b s b' xs x :
  1 <= f ->
  loop n (new a u t f) b = Done (s, b') ->
  length xs = Z.to_nat (rpmFilterSize (new a u t f)) ->
  rpmFilterSize (new a u t f) = Z.min f RPM_FILTER_SIZE /\
  (accepted_rates n (new a u t f) b = xs ->
     take (length xs) (rpmFilter s) = xs /\ getRPM s = mean xs) /\
  (accepted_rates n (new a u t f) b = xs ++ [x] ->
     take (length xs) (rpmFilter s) = x :: tail xs /\
     getRPM s = mean (x :: tail xs)).
Proof.
  intros Hf H Hlen. split; [apply new_capacity|].
  destruct (loop_feed n _ b _ s b' (same_filter_refl _) H)
    as (t' & Hfeed & Hsame).
  destruct (feed_fresh_full a u t f xs Hf Hlen)
    as (s2 & H2 & Hok2 & Hs2 & Hb2 & Hi2).
  pose proof Hok2 as (Hc2 & _ & Hl2 & _).
  split; intros Hacc; rewrite Hacc in Hfeed.
  - rewrite H2 in Hfeed. injection Hfeed as <-.
    rewrite (same_filter_getRPM _ _ Hsame).
    destruct Hsame as (-> & _ & _).
    split; [exact Hb2|].
    rewrite getRPM_mean by (unfold RPM_FILTER_SIZE in *; lia).
    rewrite Hs2, <- Hlen, Hb2. reflexivity.
  - rewrite feed_app, H2 in Hfeed. cbn [bind feed] in Hfeed.
    destruct (updateRPMFilter_window_ok x s2 Hok2)
      as (s3 & H3 & Hok3 & Hs3 & Hb3 & _).
    rewrite H3 in Hfeed. cbn [bind] in Hfeed. injection Hfeed as <-.
    rewrite (same_filter_getRPM _ _ Hsame).
    destruct Hsame as (-> & _ & _).
    pose proof Hok3 as (Hc3 & _ & Hl3 & _).
    assert (Hw : take (length xs) (rpmFilter s3) = x :: tail xs).
    { rewrite Hb3, Hi2. simpl (Z.to_nat 0).
      destruct xs as [|x1 xs1]; [cbn [length] in Hlen; lia|].
      rewrite take_insert_lt by (cbn [length]; lia).
      rewrite Hb2. reflexivity. }
    split; [exact Hw|].
    rewrite getRPM_mean by (unfold RPM_FILTER_SIZE in *; lia).
    rewrite Hs3, Hs2, <- Hlen, Hw. reflexivity.
Qed.

End Average.

Lemma filter_window_witness :
  getRPM (fst small_window_after2) = mean (take 2 small_window_rates) /\
  getRPM (fst small_window_after3)
  = mean (nth 2 small_window_rates F32.zero :: tail (take 2 small_window_rates)).
Proof.
  split.
  - refine (proj2 (proj1 (proj2 (filter_window (P := avr)
        DEFAULT_ADDRESS UPDATE_INTERVAL RPM_THRESHOLD 2 2 small_window_board
        (fst small_window_after2) (snd small_window_after2)
        (take 2 small_window_rates) F32.zero _ _ _)) _)).
    + lia.
    + vm_compute. reflexivity.
    + reflexivity.
    + vm_compute. reflexivity.
  - refine (proj2 (proj2 (proj2 (filter_window (P := avr)
        DEFAULT_ADDRESS UPDATE_INTERVAL RPM_THRESHOLD 2 3 small_window_board
        (fst small_window_after3) (snd small_window_after3)
        (take 2 small_window_rates) (nth 2 small_window_rates F32.zero)
        _ _ _)) _)).
    + lia.
    + vm_compute. reflexivity.
    + reflexivity.
    + vm_compute. reflexivity.
Defined.


(** * Further properties of the driver *)

(** ** Exhaustive checks *)

Lemma all_from_spec d : forall lo f,
  all_from d lo f = true ->
  forall z, lo <= z < lo + 2 ^ Z.of_nat d -> f z = true.
Proof.
  induction d as [|d IH]; intros lo f H z Hz.
  - cbn [all_from] in H. change (2 ^ Z.of_nat 0) with 1 in Hz.
    replace z with lo by lia. exact H.
  - cbn [all_from] in H. apply andb_prop in H as [H1 H2].
    rewrite Nat2Z.inj_succ, Z.pow_succ_r in Hz by lia.
    destruct (Z_lt_le_dec z (lo + 2 ^ Z.of_nat d)) as [Hlt|Hge].
    + apply (IH lo f H1). lia.
    + apply (IH _ f H2). lia.
Qed.

Lemma all_below_spec d f :
  all_below d f = true -> forall z, 0 <= z < 2 ^ Z.of_nat d -> f z = true.
Proof. intros H z Hz. apply (all_from_spec d 0 f H). lia. Qed.

Lemma float_eqb_eq x y : float_eqb x y = true -> x = y.
Proof.
  destruct x as [s1|s1| |s1 m1 e1], y as [s2|s2| |s2 m2 e2]; simpl;
    try discriminate; try reflexivity.
  - intros H. apply Bool.eqb_prop in H. congruence.
  - intros H. apply Bool.eqb_prop in H. congruence.
  - intros H. apply andb_prop in H as [H He]. apply andb_prop in H as [Hs Hm].
    apply Bool.eqb_prop in Hs. apply Pos.eqb_eq in Hm. apply Z.eqb_eq in He.
    congruence.
Qed.

Lemma byte_value_range (x : byte) : 0 <= Z.of_N (Byte.to_N x) < 256.
Proof. pose proof (Byte.to_N_bounded x). lia. Qed.

(** ** The sensor read *)

Section Read.
Context {P : Platform}.

Lemma angle_bytes_value (h l : byte) :
  Z.lor (Z.shiftl (Z.of_N (Byte.to_N h)) 6) (Z.shiftr (Z.of_N (Byte.to_N l)) 2)
  = 64 * Z.of_N (Byte.to_N h) + Z.of_N (Byte.to_N l) / 4.
Proof.
  assert (H : all_below 8 (fun h => all_below 8 (fun l =>
                Z.lor (Z.shiftl h 6) (Z.shiftr l 2) =? 64 * h + l / 4)) = true)
    by (vm_compute; reflexivity).
  pose proof (all_below_spec _ _ H _ (byte_value_range h)) as Hh.
  cbv beta in Hh. clear H.
  pose proof (all_below_spec _ _ Hh _ (byte_value_range l)) as Hl.
  cbv beta in Hl. apply Z.eqb_eq in Hl. exact Hl.
Qed.

(** X1. One read makes exactly one request and never reads the clock.  A
    reply of fewer than two bytes gives -1; otherwise the result is
    [64 * angle_h + angle_l / 4], a count of 0 to 16383 in which the two
    low bits of the second byte play no part. *)
Theorem readCount_decodes s b :
  snd (readCount s b)
  = mkBoard (wire_rx b) (S (wire_requests b)) (timer b) (timer_calls b) /\
  match wire_rx b (wire_requests b) with
  | h :: l :: _ =>
      fst (readCount s b) = 64 * Z.of_N (Byte.to_N h) + Z.of_N (Byte.to_N l) / 4 /\
      0 <= fst (readCount s b) <= 16383
  | _ => fst (readCount s b) = -1
  end.
Proof.
  split; [apply readCount_board|].
  unfold readCount.
  destruct (wire_rx b (wire_requests b)) as [|h [|l r]]; cbn [fst];
    try reflexivity.
  rewrite angle_bytes_value.
  pose proof (byte_value_range h). pose proof (byte_value_range l).
  split; [reflexivity|].
  pose proof (Z.div_pos (Z.of_N (Byte.to_N l)) 4 ltac:(lia) ltac:(lia)).
  pose proof (Z.div_lt_upper_bound (Z.of_N (Byte.to_N l)) 4 64
                ltac:(lia) ltac:(lia)).
  lia.
Qed.

Lemma sensor_bytes_check :
  all_below 14 (fun c =>
    match sensor_bytes c with
    | h :: l :: _ =>
        Z.lor (Z.shiftl (Z.of_N (Byte.to_N h)) 6)
              (Z.shiftr (Z.of_N (Byte.to_N l)) 2) =? c
    | _ => false
    end) = true.
Proof. vm_compute. reflexivity. Qed.

(** X2. Every count of the sensor is read back: when the next reply is the
    two bytes the sensor sends for [c], with 0 <= c < 16384, the read
    returns [c]. *)
Theorem readCount_sensor_bytes s b c :
  0 <= c < COUNTS_PER_REVOLUTION ->
  wire_rx b (wire_requests b) = sensor_bytes c ->
  fst (readCount s b) = c.
Proof.
  intros Hc Hr.
  pose proof (all_below_spec _ _ sensor_bytes_check c Hc) as Hcc.
  cbv beta in Hcc.
  unfold readCount. rewrite Hr.
  destruct (sensor_bytes c) as [|h [|l r]]; try discriminate Hcc.
  cbn [fst]. apply Z.eqb_eq. exact Hcc.
Qed.

End Read.

Lemma readCount_sensor_bytes_witness :
  fst (readCount mt6701 last_count_board) = 16374.
Proof.
  refine (readCount_sensor_bytes mt6701 last_count_board 16374 _ _).
  - vm_compute. split; [discriminate | reflexivity].
  - reflexivity.
Defined.

(** ** What the accessors return after a run *)

Section Accessors.
Context {P : Platform}.

Lemma angle_check :
  all_below 14 (fun c =>
    float_eqb (F32.mul (F32.of_Z c) COUNTS_TO_DEGREES)
              (binary_normalize F32.prec F32.emax (45 * c) (-11) false) &&
    F32.leb F32.zero (F32.mul (F32.of_Z c) COUNTS_TO_DEGREES) &&
    F32.ltb (F32.mul (F32.of_Z c) COUNTS_TO_DEGREES) (F32.of_Z 360) &&
    F32.leb F32.zero (F32.mul (F32.of_Z c) COUNTS_TO_RADIANS) &&
    F32.ltb (F32.mul (F32.of_Z c) COUNTS_TO_RADIANS) BELOW_TWO_PI) = true.
Proof. vm_compute. reflexivity. Qed.

(** X3. After any run of polls the stored count is a count of the sensor,
    the angle in degrees is the single precision number [count * 45 / 2048]
    and lies in [0, 360), and the angle in radians lies between 0 and the
    largest single precision number below 2 pi. *)
Theorem angles_in_range a u t f n b s b' :
  loop n (new a u t f) b = Done (s, b') ->
  0 <= getCount s <= 16383 /\
  getAngleDegrees s
  = binary_normalize F32.prec F32.emax (45 * getCount s) (-11) false /\
  F32.leb F32.zero (getAngleDegrees s) = true /\
  F32.ltb (getAngleDegrees s) (F32.of_Z 360) = true /\
  F32.leb F32.zero (getAngleRadians s) = true /\
  F32.ltb (getAngleRadians s) BELOW_TWO_PI = true.
Proof.
  intros H.
  apply loop_position_ok in H as (Hc & _ & _); [|apply new_position_ok].
  pose proof (all_below_spec _ _ angle_check (count s) Hc) as Hk.
  cbv beta in Hk.
  apply andb_prop in Hk as [Hk Hr2]. apply andb_prop in Hk as [Hk Hr1].
  apply andb_prop in Hk as [Hk Hd2]. apply andb_prop in Hk as [He Hd1].
  apply float_eqb_eq in He.
  unfold getCount, getAngleDegrees, getAngleRadians.
  unfold COUNTS_PER_REVOLUTION in Hc.
  split; [lia|]. split; [exact He|]. split; [exact Hd1|].
  split; [exact Hd2|]. split; [exact Hr1 | exact Hr2].
Qed.

(** X4. Full turns truncate toward zero.  After any run: with a
    non-negative accumulator, accumulator = full turns * 16384 + count;
    with a negative accumulator the count is measured from one turn
    further down, accumulator = (full turns - 1) * 16384 + count, unless
    the count is 0; and within one turn either side of the start the full
    turns are 0. *)
Theorem full_turns_truncate a u t f n b s b' :
  loop n (new a u t f) b = Done (s, b') ->
  (0 <= getAccumulator s ->
     getAccumulator s = getFullTurns s * COUNTS_PER_REVOLUTION + getCount s) /\
  (getAccumulator s < 0 -> getCount s = 0 ->
     getAccumulator s = getFullTurns s * COUNTS_PER_REVOLUTION) /\
  (getAccumulator s < 0 -> getCount s <> 0 ->
     getAccumulator s
     = (getFullTurns s - 1) * COUNTS_PER_REVOLUTION + getCount s) /\
  (- COUNTS_PER_REVOLUTION < getAccumulator s < COUNTS_PER_REVOLUTION ->
     getFullTurns s = 0).
Proof.
  intros H.
  apply loop_position_ok in H as (Hc & _ & Hm); [|apply new_position_ok].
  unfold getAccumulator, getFullTurns, getCount.
  unfold COUNTS_PER_REVOLUTION in *.
  pose proof (Z.quot_rem' (accumulator s) 16384) as Hq.
  pose proof (Z.div_mod (accumulator s) 16384 ltac:(lia)) as Hd.
  rewrite Hm in Hd.
  assert (Hpos : 0 <= accumulator s -> 0 <= Z.rem (accumulator s) 16384 < 16384)
    by (intros; apply Z.rem_bound_pos; lia).
  assert (Hneg : accumulator s <= 0 -> -16384 < Z.rem (accumulator s) 16384 <= 0)
    by (intros; pose proof (Z.rem_bound_abs (accumulator s) 16384 ltac:(lia));
        pose proof (Z.rem_nonpos (accumulator s) 16384 ltac:(lia)); lia).
  assert (Hsmall : -16384 < accumulator s < 16384 ->
                   Z.quot (accumulator s) 16384 = 0)
    by (intros; apply Z.quot_small_iff; lia).
  clear Hm.
  revert Hq Hd Hpos Hneg Hsmall.
  generalize (Z.quot (accumulator s) 16384) (Z.rem (accumulator s) 16384)
             (accumulator s / 16384) (accumulator s) (count s) Hc.
  clear. intros q r q' acc c Hc Hq Hd Hpos Hneg Hsmall.
  repeat split; intros; try lia.
Qed.

End Accessors.

Lemma angles_in_range_witness :
  F32.ltb (getAngleDegrees (fst spec_example_final)) (F32.of_Z 360) = true.
Proof.
  refine (proj1 (proj2 (proj2 (proj2 (angles_in_range (P := avr)
            DEFAULT_ADDRESS UPDATE_INTERVAL RPM_THRESHOLD RPM_FILTER_SIZE
            3 spec_example_board
            (fst spec_example_final) (snd spec_example_final) _))))).
  vm_compute. reflexivity.
Defined.

Lemma full_turns_truncate_witness :
  getAccumulator (fst spec_example_final)
  = (getFullTurns (fst spec_example_final) - 1) * COUNTS_PER_REVOLUTION
    + getCount (fst spec_example_final).
Proof.
  refine (proj1 (proj2 (proj2 (full_turns_truncate (P := avr)
            DEFAULT_ADDRESS UPDATE_INTERVAL RPM_THRESHOLD RPM_FILTER_SIZE
            3 spec_example_board
            (fst spec_example_final) (snd spec_example_final) _))) _ _).
  - vm_compute. reflexivity.
  - vm_compute. reflexivity.
  - vm_compute. discriminate.
Defined.

(** ** Following the shaft *)

Section Tracking.
Context {P : Platform}.

Lemma wrap_add_l x y : Int.wrap (Int.wrap x + y) = Int.wrap (x + y).
Proof.
  unfold Int.wrap.
  replace ((x + Int.half_modulus) mod Int.modulus - Int.half_modulus + y
           + Int.half_modulus)
    with ((x + Int.half_modulus) mod Int.modulus + y) by ring.
  rewrite Zplus_mod_idemp_l. f_equal. f_equal. ring.
Qed.

Lemma count_diff_range c old :
  0 <= c < COUNTS_PER_REVOLUTION -> 0 <= old < COUNTS_PER_REVOLUTION ->
  -8192 <= count_diff c old <= 8192.
Proof.
  intros Hc Ho. destruct (count_diff_cases c old Hc Ho) as (Hhi & Hlo & Hmid).
  unfold COUNTS_PER_REVOLUTION in *. lia.
Qed.

Lemma count_diff_antisym c old :
  0 <= c < COUNTS_PER_REVOLUTION -> 0 <= old < COUNTS_PER_REVOLUTION ->
  count_diff old c = - count_diff c old.
Proof.
  intros Hc Ho.
  destruct (count_diff_cases c old Hc Ho) as (Hhi & Hlo & Hmid).
  destruct (count_diff_cases old c Ho Hc) as (Hhi' & Hlo' & Hmid').
  unfold COUNTS_PER_REVOLUTION in *. lia.
Qed.

(** The corrected difference is the one number strictly within half a
    revolution that differs from the raw difference by whole turns. *)
Lemma count_diff_representative c old r k :
  0 <= c < COUNTS_PER_REVOLUTION -> 0 <= old < COUNTS_PER_REVOLUTION ->
  -8192 < r < 8192 -> c - old = r + k * COUNTS_PER_REVOLUTION ->
  count_diff c old = r.
Proof.
  intros Hc Ho Hr Hk.
  destruct (count_diff_cases c old Hc Ho) as (Hhi & Hlo & Hmid).
  unfold COUNTS_PER_REVOLUTION in *. lia.
Qed.

Lemma updateCount_position s b s' b' :
  0 <= poll_count s b -> updateCount s b = Done (s', b') ->
  count s' = poll_count s b /\
  accumulator s' = Int.add (accumulator s) (poll_diff s b) /\
  wire_rx b' = wire_rx b /\
  wire_requests b' = wire_requests (snd (acquire s b)).
Proof.
  intros Hc H. rewrite updateCount_sampled in H by exact Hc.
  apply track_position in H as (Hc' & Ha' & _ & _ & _ & ->).
  split; [exact Hc'|]. split; [exact Ha'|].
  rewrite acquire_board. split; reflexivity.
Qed.

(** A poll that finds the shaft at [p'], any whole number of turns plus
    [r] away from the accumulator with [r] strictly within half a
    revolution, moves the accumulator by [r]. *)
Lemma updateCount_moves_by s b s' b' p' r k :
  count s = accumulator s mod COUNTS_PER_REVOLUTION ->
  poll_count s b = p' mod COUNTS_PER_REVOLUTION ->
  -8192 < r < 8192 ->
  p' - accumulator s = r + k * COUNTS_PER_REVOLUTION ->
  updateCount s b = Done (s', b') ->
  accumulator s' = Int.wrap (accumulator s + r) /\
  count s' = p' mod COUNTS_PER_REVOLUTION.
Proof.
  intros Hcount Hnew Hr Hk H.
  assert (HR : 0 < COUNTS_PER_REVOLUTION) by (unfold COUNTS_PER_REVOLUTION; lia).
  pose proof (Z.mod_pos_bound p' _ HR) as Hb'.
  pose proof (Z.mod_pos_bound (accumulator s) _ HR) as Hb.
  apply updateCount_position in H as (Hc' & Ha' & _); [|rewrite Hnew; lia].
  split; [|congruence].
  rewrite Ha'. unfold Int.add, poll_diff. f_equal. f_equal.
  rewrite Hnew, Hcount.
  apply (count_diff_representative _ _ r
           (k - p' / COUNTS_PER_REVOLUTION
            + accumulator s / COUNTS_PER_REVOLUTION)); try assumption.
  pose proof (Z.div_mod p' COUNTS_PER_REVOLUTION ltac:(lia)).
  pose proof (Z.div_mod (accumulator s) COUNTS_PER_REVOLUTION ltac:(lia)).
  lia.
Qed.

(** X5. The corrected difference of two counts of the sensor lies in
    [-8192, 8192], is the raw difference or one revolution more or less,
    changes sign when the two counts change places, and is 0 when they are
    equal. *)
Theorem count_diff_shortest c old :
  0 <= c < COUNTS_PER_REVOLUTION -> 0 <= old < COUNTS_PER_REVOLUTION ->
  -8192 <= count_diff c old <= 8192 /\
  (count_diff c old = c - old \/
   count_diff c old = c - old - COUNTS_PER_REVOLUTION \/
   count_diff c old = c - old + COUNTS_PER_REVOLUTION) /\
  count_diff old c = - count_diff c old /\
  count_diff c c = 0.
Proof.
  intros Hc Ho.
  split; [now apply count_diff_range|].
  split; [|split; [now apply count_diff_antisym|]].
  - destruct (count_diff_cases c old Hc Ho) as (Hhi & Hlo & Hmid).
    unfold COUNTS_PER_REVOLUTION in *. lia.
  - destruct (count_diff_cases c c Hc Hc) as (_ & _ & Hmid). lia.
Qed.

(** X6. A poll follows the shaft.  When the stored count is the
    accumulator's residue, the poll finds the shaft at position [p']
    (reads [p' mod 16384]), [p'] is strictly less than half a revolution
    from the accumulator and fits an [int], the accumulator is [p']
    afterwards. *)
Theorem tracking_step s b s' b' p' :
  count s = accumulator s mod COUNTS_PER_REVOLUTION ->
  poll_count s b = p' mod COUNTS_PER_REVOLUTION ->
  -8192 < p' - accumulator s < 8192 ->
  Int.in_range p' ->
  updateCount s b = Done (s', b') ->
  accumulator s' = p' /\ count s' = p' mod COUNTS_PER_REVOLUTION.
Proof.
  intros Hcount Hnew Hd Hr H.
  destruct (updateCount_moves_by s b s' b' p' (p' - accumulator s) 0
              Hcount Hnew Hd ltac:(lia) H) as [Ha Hc].
  split; [|exact Hc]. rewrite Ha.
  replace (accumulator s + (p' - accumulator s)) with p' by ring.
  now apply wrap_small.
Qed.

(** X7. Beyond half a revolution the poll takes the short way round.
    When the shaft has moved forward by more than 8192 and less than
    24576 counts since the last poll, the accumulator ends at the position
    less one revolution, reduced into the range of [int]: exactly one
    revolution short of the position when that number fits an [int].
    When it has moved back by as much, the accumulator ends at the
    position plus one revolution, reduced likewise: exactly one revolution
    above it when that fits. *)
Theorem half_revolution_aliasing s b s' b' p' :
  count s = accumulator s mod COUNTS_PER_REVOLUTION ->
  poll_count s b = p' mod COUNTS_PER_REVOLUTION ->
  updateCount s b = Done (s', b') ->
  (8192 < p' - accumulator s < 24576 ->
   accumulator s' = Int.wrap (p' - COUNTS_PER_REVOLUTION) /\
   (Int.in_range (p' - COUNTS_PER_REVOLUTION) ->
    accumulator s' = p' - COUNTS_PER_REVOLUTION)) /\
  (-24576 < p' - accumulator s < -8192 ->
   accumulator s' = Int.wrap (p' + COUNTS_PER_REVOLUTION) /\
   (Int.in_range (p' + COUNTS_PER_REVOLUTION) ->
    accumulator s' = p' + COUNTS_PER_REVOLUTION)).
Proof.
  intros Hcount Hnew H. split; intros Hd.
  - destruct (updateCount_moves_by s b s' b' p'
                (p' - accumulator s - COUNTS_PER_REVOLUTION) 1 Hcount Hnew
                ltac:(unfold COUNTS_PER_REVOLUTION; lia) ltac:(lia) H)
      as [Ha _].
    replace (accumulator s + (p' - accumulator s - COUNTS_PER_REVOLUTION))
      with (p' - COUNTS_PER_REVOLUTION) in Ha by ring.
    split; [exact Ha|]. intros Hr. rewrite Ha. now apply wrap_small.
  - destruct (updateCount_moves_by s b s' b' p'
                (p' - accumulator s + COUNTS_PER_REVOLUTION) (-1) Hcount Hnew
                ltac:(unfold COUNTS_PER_REVOLUTION; lia) ltac:(lia) H)
      as [Ha _].
    replace (accumulator s + (p' - accumulator s + COUNTS_PER_REVOLUTION))
      with (p' + COUNTS_PER_REVOLUTION) in Ha by ring.
    split; [exact Ha|]. intros Hr. rewrite Ha. now apply wrap_small.
Qed.

(** X8. There and back.  Two consecutive polls that hold a sample, the
    second reading the count stored before the first, leave accumulator
    and count where they were, also when the accumulator overflowed in
    between. *)
Theorem forth_and_back s b s1 b1 s2 b2 :
  position_ok s ->
  0 <= poll_count s b ->
  updateCount s b = Done (s1, b1) ->
  updateCount s1 b1 = Done (s2, b2) ->
  poll_count s1 b1 = count s ->
  accumulator s2 = accumulator s /\ count s2 = count s.
Proof.
  intros (Hc & Hr & _) Hnew H1 H2 Hback.
  assert (Hv : 0 <= poll_count s b < COUNTS_PER_REVOLUTION)
    by (unfold poll_count in *; destruct (acquire_range s b); lia).
  apply updateCount_position in H1 as (Hc1 & Ha1 & _); [|exact Hnew].
  apply updateCount_position in H2 as (Hc2 & Ha2 & _); [|rewrite Hback; lia].
  split; [|congruence].
  rewrite Ha2, Ha1. unfold poll_diff. rewrite Hback, Hc1.
  rewrite (count_diff_antisym _ _ Hv Hc).
  unfold Int.add. rewrite wrap_add_l.
  replace (accumulator s + count_diff (poll_count s b) (count s)
           + - count_diff (poll_count s b) (count s))
    with (accumulator s) by ring.
  now apply wrap_small.
Qed.

End Tracking.

Lemma count_diff_shortest_witness :
  count_diff (P := avr) 16383 0 = - count_diff (P := avr) 0 16383.
Proof.
  refine (proj1 (proj2 (proj2 (count_diff_shortest (P := avr) 0 16383 _ _)))).
  - vm_compute. split; [discriminate | reflexivity].
  - vm_compute. split; [discriminate | reflexivity].
Defined.

Lemma tracking_step_witness :
  accumulator (fst back_and_forth_state) = -1.
Proof.
  refine (proj1 (tracking_step (P := avr) mt6701 back_and_forth_board
            (fst back_and_forth_state) (snd back_and_forth_state) (-1)
            _ _ _ _ _)).
  - reflexivity.
  - vm_compute. reflexivity.
  - vm_compute. split; reflexivity.
  - vm_compute. split; discriminate.
  - vm_compute. reflexivity.
Defined.

Lemma half_revolution_aliasing_witness :
  accumulator (fst far_jump_final) = 10000 - COUNTS_PER_REVOLUTION.
Proof.
  refine (proj2 (proj1 (half_revolution_aliasing (P := avr) mt6701
            far_jump_board (fst far_jump_final) (snd far_jump_final) 10000
            _ _ _) _) _).
  - reflexivity.
  - vm_compute. reflexivity.
  - vm_compute. reflexivity.
  - vm_compute. split; reflexivity.
  - vm_compute. split; discriminate.
Defined.

Lemma forth_and_back_witness :
  accumulator (fst half_turn_final) = accumulator mt6701.
Proof.
  refine (proj1 (forth_and_back (P := avr) mt6701 half_turn_board
            (fst half_turn_state) (snd half_turn_state)
            (fst half_turn_final) (snd half_turn_final) _ _ _ _ _)).
  - split; [vm_compute; split; [discriminate | reflexivity]|].
    split; [vm_compute; split; discriminate | reflexivity].
  - vm_compute. discriminate.
  - vm_compute. reflexivity.
  - vm_compute. reflexivity.
  - vm_compute. reflexivity.
Defined.

(** ** Runs of polls *)

Section Runs.
Context {P : Platform}.

(** A first reply that carries the count [c] ends the poll's reading after
    one request. *)
Lemma acquire_first_valid s b c :
  0 <= c < COUNTS_PER_REVOLUTION ->
  wire_rx b (wire_requests b) = sensor_bytes c ->
  acquire s b
  = (c, mkBoard (wire_rx b) (S (wire_requests b)) (timer b) (timer_calls b)).
Proof.
  intros Hc Hr.
  pose proof (all_below_spec _ _ sensor_bytes_check c Hc) as Hcc.
  cbv beta in Hcc.
  unfold acquire, readCount. rewrite Hr.
  destruct (sensor_bytes c) as [|h [|l r]]; try discriminate Hcc.
  apply Z.eqb_eq in Hcc. rewrite Hcc. cbn [retry].
  destruct (Z.ltb_spec c 0); [lia | reflexivity].
Qed.

Lemma last_cons (q : Z) qs d : List.last (q :: qs) d = List.last qs q.
Proof.
  revert q d. induction qs as [|z qs IH]; intros q d; [reflexivity|].
  change (List.last (q :: z :: qs) d) with (List.last (z :: qs) d).
  rewrite (IH z d), (IH z q). reflexivity.
Qed.

Lemma tracking_from ps : forall s b,
  window_ok s ->
  count s = accumulator s mod COUNTS_PER_REVOLUTION ->
  smooth (accumulator s) ps ->
  Forall Int.in_range ps ->
  readings_follow b ps ->
  exists s' b',
    loop (length ps) s b = Done (s', b') /\
    accumulator s' = List.last ps (accumulator s) /\
    count s' = accumulator s' mod COUNTS_PER_REVOLUTION /\
    wire_requests b' = (wire_requests b + length ps)%nat.
Proof.
  induction ps as [|q qs IH]; intros s b Hok Hcount Hsm Hin Hrd.
  - exists s, b. cbn [loop length List.last].
    split; [reflexivity|]. split; [reflexivity|]. split; [exact Hcount | lia].
  - destruct Hsm as [Hq Hsm]. inversion Hin as [|? ? Hqr Hin']; subst.
    assert (HR : 0 < COUNTS_PER_REVOLUTION)
      by (unfold COUNTS_PER_REVOLUTION; lia).
    pose proof (Z.mod_pos_bound q _ HR) as Hqm.
    pose proof (Hrd 0%nat ltac:(cbn [length]; lia)) as Hr0.
    rewrite Nat.add_0_r in Hr0. cbn [nth] in Hr0.
    pose proof (acquire_first_valid s b _ Hqm Hr0) as Hacq.
    assert (Hpc : poll_count s b = q mod COUNTS_PER_REVOLUTION)
      by (unfold poll_count; rewrite Hacq; reflexivity).
    destruct (updateCount_window_ok s b Hok) as (s1 & b1 & H1 & Hok1 & _).
    destruct (updateCount_moves_by s b s1 b1 q (q - accumulator s) 0
                Hcount Hpc Hq ltac:(lia) H1) as [Ha1 Hc1].
    replace (accumulator s + (q - accumulator s)) with q in Ha1 by ring.
    rewrite wrap_small in Ha1 by exact Hqr.
    apply updateCount_position in H1 as Hb1; [|rewrite Hpc; lia].
    destruct Hb1 as (_ & _ & Hrx & Hrq). rewrite Hacq in Hrq. cbn [snd wire_requests] in Hrq.
    destruct (IH s1 b1 Hok1) as (s' & b' & H' & Ha' & Hc' & Hq').
    + rewrite Ha1. exact Hc1.
    + rewrite Ha1. exact Hsm.
    + exact Hin'.
    + intros k Hk. rewrite Hrx, Hrq, Nat.add_succ_l, <- Nat.add_succ_r.
      apply (Hrd (S k)). cbn [length]. lia.
    + exists s', b'. cbn [loop length]. rewrite H1. cbn [bind fst snd].
      split; [exact H'|]. split.
      * rewrite Ha', Ha1, last_cons. reflexivity.
      * split; [exact Hc'|]. rewrite Hq', Hrq. lia.
Qed.

(** X9. Following the shaft over a run.  On a driver constructed with a
    filter size of at least 1, when the sensor answers every request at
    once and the shaft stands at the positions [ps] at the successive
    polls, each strictly less than half a revolution from the one before
    (the first from 0) and each within the range of [int], the run
    completes with one request per poll and the accumulator is the last
    position. *)
Theorem tracking_run a u t f b ps :
  1 <= f ->
  smooth 0 ps ->
  Forall Int.in_range ps ->
  readings_follow b ps ->
  exists s b',
    loop (length ps) (new a u t f) b = Done (s, b') /\
    accumulator s = List.last ps 0 /\
    count s = List.last ps 0 mod COUNTS_PER_REVOLUTION /\
    wire_requests b' = (wire_requests b + length ps)%nat.
Proof.
  intros Hf Hsm Hin Hrd.
  destruct (tracking_from ps (new a u t f) b (new_window_ok a u t f Hf)
              ltac:(reflexivity) Hsm Hin Hrd) as (s & b' & H & Ha & Hc & Hq).
  exists s, b'. cbn [accumulator new] in Ha.
  split; [exact H|]. split; [exact Ha|]. split; [congruence | exact Hq].
Qed.



Lemma updateCount_board s b s' b' :
  updateCount s b = Done (s', b') ->
  wire_rx b' = wire_rx b /\ timer b' = timer b /\
  (wire_requests b + 1 <= wire_requests b' <= wire_requests b + 4)%nat /\
  (timer_calls b <= timer_calls b' <= timer_calls b + 1)%nat.
Proof.
  intros H. rewrite updateCount_eq in H.
  pose proof (acquire_board s b) as Hb.
  pose proof (attempts_positive 3 (wire_rx b) (wire_requests b)) as Hlo.
  pose proof (attempts_bound 4 (wire_rx b) (wire_requests b)) as Hhi.
  destruct (fst (acquire s b) <? 0).
  - injection H as _ <-. rewrite Hb. cbn [wire_rx timer wire_requests timer_calls].
    repeat split; lia.
  - apply track_inv in H as (s1 & _ & _ & ->). rewrite Hb.
    cbn [millis snd wire_rx timer wire_requests timer_calls].
    repeat split; lia.
Qed.

(** X11. The bus and clock budget of a run: [n] polls make at least [n]
    and at most [4 n] requests on the bus and read the clock at most [n]
    times, and they leave what the sensor and the clock will answer
    untouched. *)
Theorem run_budget n : forall s b s' b',
  loop n s b = Done (s', b') ->
  wire_rx b' = wire_rx b /\ timer b' = timer b /\
  (wire_requests b + n <= wire_requests b' <= wire_requests b + 4 * n)%nat /\
  (timer_calls b <= timer_calls b' <= timer_calls b + n)%nat.
Proof.
  induction n as [|n IH]; intros s b s' b' H.
  - injection H as _ <-. repeat split; lia.
  - cbn [loop] in H.
    destruct (updateCount s b) as [[s1 b1]|] eqn:H1; cbn [bind fst snd] in H;
      [|discriminate].
    apply updateCount_board in H1 as (Hrx & Htm & Hrq & Htc).
    apply IH in H as (Hrx' & Htm' & Hrq' & Htc').
    split; [congruence|]. split; [congruence|]. split; lia.
Qed.

(** X12. A sensor that never answers: [n] polls leave the driver object
    as it was, make exactly [4 n] requests and never read the clock. *)
Theorem silent_sensor_run n : forall s b,
  (forall k, valid_reply (wire_rx b (wire_requests b + k)%nat) = false) ->
  loop n s b
  = Done (s, mkBoard (wire_rx b) (wire_requests b + 4 * n)%nat
               (timer b) (timer_calls b)).
Proof.
  induction n as [|n IH]; intros s b Hsilent.
  - cbn [loop]. destruct b; cbn [wire_rx wire_requests timer timer_calls].
    do 2 f_equal. f_equal. lia.
  - cbn [loop].
    rewrite updateCount_failed
      by (apply acquire_all_invalid; intros i _; apply Hsilent).
    cbn [bind fst snd]. rewrite acquire_board.
    rewrite attempts_all_invalid by (intros i _; apply Hsilent).
    rewrite IH.
    + cbn [wire_rx wire_requests timer timer_calls]. do 2 f_equal. f_equal. lia.
    + cbn [wire_rx wire_requests]. intros k.
      rewrite <- Nat.add_assoc. apply Hsilent.
Qed.

(** X13. The rate survives the roll-over of the clock.  When the clock
    reads the stored timestamp plus [dt] modulo 2^32, with 0 < dt < 2^32,
    a poll that holds a sample computes its rate from [dt]: that rate is
    what the [rpm] field holds afterwards, it is written at the write
    index of the filter exactly when it passes the threshold test, and
    the clock reading becomes the timestamp. *)
Theorem elapsed_across_rollover s b s' b' dt :
  0 <= poll_count s b ->
  0 < dt < ULong.modulus ->
  poll_time s b = (lastUpdateTime s + dt) mod ULong.modulus ->
  updateCount s b = Done (s', b') ->
  poll_elapsed s b = dt /\
  rpm s' = rpm_of (poll_diff s b) dt /\
  lastUpdateTime s' = (lastUpdateTime s + dt) mod ULong.modulus /\
  rpmFilter s'
  = (if F32.ltb (F32.abs (rpm_of (poll_diff s b) dt))
               (F32.of_Z (rpmThreshold s))
     then <[Z.to_nat (rpmFilterIndex s) := rpm_of (poll_diff s b) dt]>
            (rpmFilter s)
     else rpmFilter s).
Proof.
  intros Hc Hdt Ht H.
  assert (He : poll_elapsed s b = dt).
  { unfold poll_elapsed, ULong.sub, ULong.wrap. rewrite Ht.
    rewrite Zminus_mod_idemp_l.
    replace (lastUpdateTime s + dt - lastUpdateTime s) with dt by ring.
    apply Z.mod_small. lia. }
  split; [exact He|].
  rewrite updateCount_with_sample in H by exact Hc.
  rewrite He, Ht in H.
  destruct (F32.ltb (F32.abs (rpm_of (poll_diff s b) dt))
                    (F32.of_Z (rpmThreshold s))) eqn:Hlt.
  - rewrite rate_step_accepted in H by (lia || exact Hlt).
    destruct (updateRPMFilter _ (set_rpm _ s)) as [s1|] eqn:H1;
      cbn [bind] in H; [|discriminate].
    apply updateRPMFilter_inv in H1 as (_ & _ & ->).
    injection H as <- _. repeat split.
  - rewrite rate_step_rejected in H by (lia || exact Hlt).
    injection H as <- _. repeat split.
Qed.

End Runs.

Lemma tracking_run_witness :
  exists s b',
    loop (P := avr) 3 mt6701 spec_example_board = Done (s, b') /\
    accumulator s = -10.
Proof.
  destruct (tracking_run (P := avr)
              DEFAULT_ADDRESS UPDATE_INTERVAL RPM_THRESHOLD RPM_FILTER_SIZE
              spec_example_board [10; 20; -10]) as (s & b' & H & Ha & _).
  - vm_compute. discriminate.
  - cbn [smooth]. repeat split; lia.
  - repeat constructor; vm_compute; discriminate.
  - intros [|[|[|k]]] Hk; try reflexivity. cbn [length] in Hk. lia.
  - exists s, b'. split; [exact H | exact Ha].
Defined.


Lemma run_budget_witness :
  (0 + 1 <= wire_requests (snd late_reply_board_final) <= 0 + 4 * 1)%nat.
Proof.
  refine (proj1 (proj2 (proj2 (run_budget (P := avr) 1 mt6701 late_reply_board
            (fst late_reply_board_final) (snd late_reply_board_final) _)))).
  vm_compute. reflexivity.
Defined.

Lemma silent_sensor_run_witness :
  loop (P := avr) 5 (fst spec_example_final) silent_board
  = Done (fst spec_example_final,
          mkBoard (wire_rx silent_board) 20 (timer silent_board) 0).
Proof.
  refine (silent_sensor_run (P := avr) 5 (fst spec_example_final)
            silent_board _).
  intros [|k]; reflexivity.
Defined.

Lemma elapsed_across_rollover_witness :
  poll_elapsed (fst rollover_state) (snd rollover_state) = 11 /\
  rpm (fst rollover_final)
  = rpm_of (poll_diff (P := avr) (fst rollover_state) (snd rollover_state)) 11.
Proof.
  destruct (elapsed_across_rollover (P := avr)
              (fst rollover_state) (snd rollover_state)
              (fst rollover_final) (snd rollover_final) 11)
    as (He & Hr & _).
  - vm_compute. discriminate.
  - vm_compute. split; reflexivity.
  - vm_compute. reflexivity.
  - vm_compute. reflexivity.
  - split; [exact He | exact Hr].
Defined.

(** ** The filter as a ring *)

Section Ring.
Context {P : Platform}.

Lemma residues_differ (i k n : nat) :
  (i < k)%nat -> (k < i + n)%nat -> (i mod n)%nat <> (k mod n)%nat.
Proof.
  intros Hik Hkn E.
  pose proof (Nat.div_mod_eq i n) as Hi.
  pose proof (Nat.div_mod_eq k n) as Hk.
  rewrite E in Hi.
  destruct (Nat.lt_ge_cases (i / n) (k / n)) as [Hlt|Hge].
  - pose proof (Nat.mul_le_mono_l (S (i / n)) (k / n) n Hlt). lia.
  - pose proof (Nat.mul_le_mono_l (k / n) (i / n) n Hge). lia.
Qed.

Lemma index_residue (k : nat) (n : Z) :
  0 < n -> Z.to_nat (Z.of_nat k mod n) = (k mod Z.to_nat n)%nat.
Proof.
  intros Hn. rewrite <- (Z2Nat.id n) at 1 by lia.
  rewrite <- Nat2Z.inj_mod. apply Nat2Z.id.
Qed.

(** After any number of writes into a fresh filter the write index is the
    number of writes modulo the capacity, and each of the newest
    [capacity] samples sits in the slot of its number modulo the
    capacity. *)
Lemma feed_ring a u t f xs :
  1 <= f ->
  exists s,
    feed xs (new a u t f) = Done s /\ window_ok s /\
    rpmFilterSize s = rpmFilterSize (new a u t f) /\
    rpmFilterIndex s = Z.of_nat (length xs) mod rpmFilterSize (new a u t f) /\
    forall i : nat,
      (i < length xs)%nat ->
      (length xs <= i + Z.to_nat (rpmFilterSize (new a u t f)))%nat ->
      rpmFilter s !! (i mod Z.to_nat (rpmFilterSize (new a u t f)))%nat
      = xs !! i.
Proof.
  intros Hf. pose proof (new_window_ok a u t f Hf) as Hok0.
  set (N := rpmFilterSize (new a u t f)) in *.
  assert (HN : 1 <= N <= RPM_FILTER_SIZE) by apply Hok0.
  induction xs as [|x xs IH] using rev_ind.
  - exists (new a u t f). split; [reflexivity|]. split; [exact Hok0|].
    split; [reflexivity|]. split; [reflexivity|].
    intros i Hi. cbn [length] in Hi. lia.
  - destruct IH as (s & H & Hok & Hs & Hi & Hslots).
    destruct (updateRPMFilter_window_ok x s Hok)
      as (s1 & H1 & Hok1 & Hs1 & Hb1 & Hi1).
    pose proof Hok as (_ & _ & Hlen & _).
    exists s1. rewrite feed_app, H. cbn [bind feed]. rewrite H1. cbn [bind].
    split; [reflexivity|]. split; [exact Hok1|]. split; [congruence|].
    rewrite length_app. cbn [length].
    split.
    + rewrite Hi1, Hs, Hi.
      rewrite Z.rem_mod_nonneg
        by (pose proof (Z.mod_pos_bound (Z.of_nat (length xs)) N); lia).
      rewrite Zplus_mod_idemp_l. f_equal. lia.
    + intros i Hil Hin. rewrite Hb1, Hi, index_residue by lia.
      unfold RPM_FILTER_SIZE in *.
      assert (Hup : (length xs mod Z.to_nat N < Z.to_nat N)%nat)
        by (apply Nat.mod_upper_bound; lia).
      destruct (Nat.eq_dec i (length xs)) as [->|Hne].
      * rewrite list_lookup_insert_eq by lia.
        symmetry. apply list_lookup_middle. reflexivity.
      * rewrite list_lookup_insert_ne
          by (apply not_eq_sym, residues_differ; lia).
        rewrite lookup_app_l by lia. apply Hslots; lia.
Qed.

(** X14. The filter is a ring over the accepted rates.  After any run on
    a driver constructed with a filter size of at least 1, the write index
    is the number of rates the run accepted modulo the capacity, and each
    of the newest [capacity] accepted rates, the [i]-th say, sits in slot
    [i mod capacity]. *)
Theorem ring_placement a u t f n b s b' :
  1 <= f ->
  loop n (new a u t f) b = Done (s, b') ->
  let xs := accepted_rates n (new a u t f) b in
  let N := Z.to_nat (rpmFilterSize (new a u t f)) in
  rpmFilterIndex s = Z.of_nat (length xs mod N) /\
  forall i : nat,
    (i < length xs)%nat -> (length xs <= i + N)%nat ->
    rpmFilter s !! (i mod N)%nat = xs !! i.
Proof.
  intros Hf H xs N.
  destruct (loop_feed n _ b _ s b' (same_filter_refl _) H)
    as (t' & Hfeed & (Hb & Hi & _)).
  destruct (feed_ring a u t f xs Hf) as (s2 & H2 & Hok2 & _ & Hi2 & Hslots).
  fold xs in Hfeed. rewrite H2 in Hfeed. injection Hfeed as <-.
  pose proof (new_window_ok a u t f Hf) as (HN & _).
  split.
  - rewrite Hi, Hi2. unfold N. rewrite Nat2Z.inj_mod, Z2Nat.id by lia.
    reflexivity.
  - intros i Hil Hin. rewrite Hb. apply Hslots; assumption.
Qed.

Lemma mean_zeros (n : nat) :
  (1 <= n <= 10)%nat -> mean (replicate n F32.zero) = F32.zero.
Proof.
  intros Hn.
  do 11 (destruct n as [|n]; [try lia; reflexivity|]). lia.
Qed.

(** X15. Until the window is full the mean is taken over the whole
    window.  After a run that accepted at most [capacity] rates the window
    holds them followed by the zeros it was initialised with, [getRPM] is
    the mean of all [capacity] slots, zeros included, and it is 0 as long
    as no rate was accepted. *)
Theorem window_fills_from_zero a u t f n b s b' :
  1 <= f ->
  loop n (new a u t f) b = Done (s, b') ->
  let xs := accepted_rates n (new a u t f) b in
  let N := Z.to_nat (rpmFilterSize (new a u t f)) in
  (length xs <= N)%nat ->
  take N (rpmFilter s) = xs ++ replicate (N - length xs) F32.zero /\
  getRPM s = mean (xs ++ replicate (N - length xs) F32.zero) /\
  (xs = [] -> getRPM s = F32.zero).
Proof.
  intros Hf H xs N Hlen.
  destruct (loop_feed n _ b _ s b' (same_filter_refl _) H)
    as (t' & Hfeed & Hsame).
  pose proof (new_window_ok a u t f Hf) as Hok0.
  pose proof Hok0 as (HN & _).
  destruct (feed_fill xs (new a u t f) 0 Hok0 ltac:(reflexivity)
              ltac:(exact Hlen)) as (s2 & H2 & Hok2 & Hs2 & Hb2 & _).
  fold xs in Hfeed. rewrite H2 in Hfeed. injection Hfeed as <-.
  rewrite (same_filter_getRPM _ _ Hsame). destruct Hsame as (-> & _ & _).
  pose proof Hok2 as (_ & _ & Hl2 & _).
  unfold RPM_FILTER_SIZE in *.
  assert (Hw : take N (rpmFilter s2)
               = xs ++ replicate (N - length xs) F32.zero).
  { rewrite Hb2, take_0. cbn [app new rpmFilter].
    rewrite Nat.add_0_l, drop_replicate, take_app_ge by exact Hlen.
    rewrite take_replicate. f_equal. f_equal. unfold RPM_FILTER_SIZE. lia. }
  assert (Hg : getRPM s2 = mean (xs ++ replicate (N - length xs) F32.zero)).
  { rewrite getRPM_mean by lia. rewrite Hs2. fold N. rewrite Hw. reflexivity. }
  split; [exact Hw|]. split; [exact Hg|].
  intros Hnil. rewrite Hg, Hnil. cbn [app length].
  rewrite Nat.sub_0_r. apply mean_zeros. lia.
Qed.

Lemma feed_negative xs : forall s (i : nat),
  rpmFilterSize s < 0 ->
  rpmFilterIndex s = Z.of_nat i ->
  (i + length xs <= Z.to_nat RPM_FILTER_SIZE)%nat ->
  Z.of_nat (i + length xs) < - rpmFilterSize s ->
  exists s',
    feed xs s = Done s' /\
    rpmFilterSize s' = rpmFilterSize s /\
    rpmFilterIndex s' = Z.of_nat (i + length xs).
Proof.
  induction xs as [|x xs IH]; intros s i Hs Hi Hroom Hcap.
  - exists s. cbn [feed length]. rewrite Nat.add_0_r.
    split; [reflexivity|]. split; [reflexivity | exact Hi].
  - cbn [length] in *. unfold RPM_FILTER_SIZE in *.
    cbn [feed]. unfold updateRPMFilter. rewrite Hi.
    destruct (Z.leb_spec 0 (Z.of_nat i)); [|lia].
    destruct (Z.ltb_spec (Z.of_nat i) RPM_FILTER_SIZE);
      [|unfold RPM_FILTER_SIZE in *; lia].
    destruct (Z.eqb_spec (rpmFilterSize s) 0); [lia|].
    cbn [andb bind].
    match goal with |- context [feed xs ?s1] =>
      destruct (IH s1 (S i)) as (s' & H' & Hs' & Hi') end.
    + exact Hs.
    + cbn [rpmFilterIndex rpmFilterSize]. unfold Int.add.
      rewrite wrap_small by (apply small_in_range; lia).
      rewrite <- (Z.opp_involutive (rpmFilterSize s)).
      rewrite Z.rem_opp_r by lia. rewrite Z.rem_small by lia. lia.
    + lia.
    + cbn [rpmFilterSize]. lia.
    + exists s'. split; [exact H'|]. split; [exact Hs'|].
      rewrite Hi'. f_equal. lia.
Qed.

Lemma zero_over_negative_check :
  all_below 15 (fun k =>
    float_eqb (F32.div (F32.of_Z 0) (F32.of_Z (-1 - k))) (S754_zero true))
  = true.
Proof. vm_compute. reflexivity. Qed.

(** X16. What a negative capacity does.  A negative size is stored as it
    is.  Whatever the filter holds, [getRPM] is then -0.0 (for any size a
    16-bit [int] can hold); and with a size below -10 the write index
    runs past the ten slots: after ten stored rates the eleventh write is
    outside the array. *)
Theorem negative_capacity a u t f :
  f < 0 ->
  rpmFilterSize (new a u t f) = f /\
  (forall s, -32768 <= rpmFilterSize s < 0 -> getRPM s = S754_zero true) /\
  (f < -10 -> forall ys x, length ys = 10%nat ->
     feed (ys ++ [x]) (new a u t f) = Undefined).
Proof.
  intros Hf.
  assert (Hsz : rpmFilterSize (new a u t f) = f)
    by (rewrite new_capacity; unfold RPM_FILTER_SIZE; lia).
  split; [exact Hsz|]. split.
  - intros s Hs. unfold getRPM.
    replace (Z.to_nat (rpmFilterSize s)) with 0%nat by lia.
    cbn [getRPM_loop].
    pose proof (all_below_spec _ _ zero_over_negative_check
                  (-1 - rpmFilterSize s) ltac:(lia)) as Hk.
    cbv beta in Hk. apply float_eqb_eq in Hk.
    replace (-1 - (-1 - rpmFilterSize s)) with (rpmFilterSize s) in Hk by ring.
    exact Hk.
  - intros Hlow ys x Hlen.
    destruct (feed_negative ys (new a u t f) 0) as (s' & H' & Hs' & Hi').
    + rewrite Hsz. exact Hf.
    + reflexivity.
    + rewrite Hlen. unfold RPM_FILTER_SIZE. lia.
    + rewrite Hsz, Hlen. lia.
    + rewrite feed_app, H'. cbn [bind feed].
      unfold updateRPMFilter. rewrite Hi', Hlen. reflexivity.
Qed.

End Ring.

Lemma ring_placement_witness :
  rpmFilter (fst small_window_after3) !! 0%nat = small_window_rates !! 2%nat.
Proof.
  refine (proj2 (ring_placement (P := avr)
            DEFAULT_ADDRESS UPDATE_INTERVAL RPM_THRESHOLD 2 3 small_window_board
            (fst small_window_after3) (snd small_window_after3) _ _)
            2%nat _ _).
  - lia.
  - vm_compute. reflexivity.
  - vm_compute. lia.
  - vm_compute. lia.
Defined.

Lemma window_fills_from_zero_witness :
  getRPM (fst small_window_after1)
  = mean (take 1 small_window_rates ++ [F32.zero]).
Proof.
  refine (proj1 (proj2 (window_fills_from_zero (P := avr)
            DEFAULT_ADDRESS UPDATE_INTERVAL RPM_THRESHOLD 2 1 small_window_board
            (fst small_window_after1) (snd small_window_after1) _ _ _))).
  - lia.
  - vm_compute. reflexivity.
  - vm_compute. lia.
Defined.

Lemma negative_capacity_witness :
  getRPM (new DEFAULT_ADDRESS UPDATE_INTERVAL RPM_THRESHOLD (-3))
  = S754_zero true /\
  feed (P := avr) (replicate 10 F32.zero ++ [F32.zero])
    (new DEFAULT_ADDRESS UPDATE_INTERVAL RPM_THRESHOLD (-11)) = Undefined.
Proof.
  split.
  - refine (proj1 (proj2 (negative_capacity (P := avr)
              DEFAULT_ADDRESS UPDATE_INTERVAL RPM_THRESHOLD (-3) _)) _ _).
    + lia.
    + vm_compute. split; [discriminate | reflexivity].
  - refine (proj2 (proj2 (negative_capacity (P := avr)
              DEFAULT_ADDRESS UPDATE_INTERVAL RPM_THRESHOLD (-11) _)) _ _ _ _).
    + lia.
    + lia.
    + reflexivity.
Defined.

(** ** Which reply a poll uses *)

Section FirstReply.
Context {P : Platform}.

Lemma readCount_fst_ext s b1 b2 :
  wire_rx b1 (wire_requests b1) = wire_rx b2 (wire_requests b2) ->
  fst (readCount s b1) = fst (readCount s b2).
Proof.
  intros E. unfold readCount. rewrite E.
  destruct (wire_rx b2 (wire_requests b2)) as [|h [|l r]]; reflexivity.
Qed.

Lemma retry_nonneg n s c b : 0 <= c -> retry n s c b = (c, b).
Proof.
  intros Hc. destruct n as [|n]; cbn [retry]; [reflexivity|].
  destruct (Z.ltb_spec c 0); [lia | reflexivity].
Qed.

Lemma retry_first_valid n : forall s c b (i : nat),
  c < 0 -> (i < n)%nat ->
  (forall j, (j < i)%nat ->
     valid_reply (wire_rx b (wire_requests b + j)%nat) = false) ->
  valid_reply (wire_rx b (wire_requests b + i)%nat) = true ->
  fst (retry n s c b)
  = fst (readCount s (mkBoard (wire_rx b) (wire_requests b + i)%nat
                        (timer b) (timer_calls b))).
Proof.
  induction n as [|n IH]; intros s c b i Hc Hi Hbefore Hat; [lia|].
  cbn [retry]. destruct (Z.ltb_spec c 0); [|lia].
  pose proof (readCount_board s b) as Hb.
  destruct i as [|i].
  - rewrite Nat.add_0_r in Hat.
    pose proof (readCount_valid s b Hat) as Hv.
    destruct (readCount s b) as [c' b1] eqn:E. cbn [fst snd] in Hb, Hv.
    rewrite retry_nonneg by lia. cbn [fst].
    change c' with (fst (c', b1)). rewrite <- E.
    apply readCount_fst_ext. cbn [wire_rx wire_requests].
    rewrite Nat.add_0_r. reflexivity.
  - pose proof (Hbefore 0%nat ltac:(lia)) as H0. rewrite Nat.add_0_r in H0.
    pose proof (readCount_invalid s b H0) as Hv.
    destruct (readCount s b) as [c' b1]. cbn [fst snd] in Hb, Hv. subst c' b1.
    set (b1 := mkBoard (wire_rx b) (S (wire_requests b)) (timer b)
                 (timer_calls b)).
    assert (Hbefore' : forall j, (j < i)%nat ->
              valid_reply (wire_rx b1 (wire_requests b1 + j)%nat) = false).
    { intros j Hj. cbn [b1 wire_rx wire_requests].
      rewrite Nat.add_succ_l, <- Nat.add_succ_r. apply Hbefore. lia. }
    assert (Hat' : valid_reply (wire_rx b1 (wire_requests b1 + i)%nat) = true).
    { cbn [b1 wire_rx wire_requests].
      rewrite Nat.add_succ_l, <- Nat.add_succ_r. exact Hat. }
    rewrite (IH s (-1) b1 i ltac:(lia) ltac:(lia) Hbefore' Hat').
    apply readCount_fst_ext. cbn [b1 wire_rx wire_requests].
    rewrite Nat.add_succ_l, <- Nat.add_succ_r. reflexivity.
Qed.

Lemma acquire_as_retry s b : acquire s b = retry 4 s (-1) b.
Proof. reflexivity. Qed.

(** X17. A poll uses the first valid reply.  When reply number [i] of the
    poll (counting from 0, [i < 4]) is the first with two bytes, the count
    the poll works with is the one a single read decodes from that reply,
    a count of 0 to 16383; and the poll, when it returns, has made
    [i + 1] requests and has stored that count. *)
Theorem poll_uses_first_valid s b (i : nat) :
  (i < 4)%nat ->
  (forall j, (j < i)%nat ->
     valid_reply (wire_rx b (wire_requests b + j)%nat) = false) ->
  valid_reply (wire_rx b (wire_requests b + i)%nat) = true ->
  poll_count s b
  = fst (readCount s (mkBoard (wire_rx b) (wire_requests b + i)%nat
                        (timer b) (timer_calls b))) /\
  0 <= poll_count s b <= 16383 /\
  wire_requests (snd (acquire s b)) = (wire_requests b + S i)%nat /\
  forall s' b', updateCount s b = Done (s', b') ->
    count s'
    = fst (readCount s (mkBoard (wire_rx b) (wire_requests b + i)%nat
                          (timer b) (timer_calls b))) /\
    wire_requests b' = (wire_requests b + S i)%nat /\
    timer_calls b' = S (timer_calls b).
Proof.
  intros Hi Hbefore Hat.
  assert (Hval : poll_count s b
                 = fst (readCount s (mkBoard (wire_rx b) (wire_requests b + i)%nat
                                       (timer b) (timer_calls b)))).
  { unfold poll_count. rewrite acquire_as_retry.
    apply retry_first_valid; try assumption. lia. }
  assert (Hrange : 0 <= poll_count s b <= 16383).
  { rewrite Hval.
    pose proof (readCount_valid s
                  (mkBoard (wire_rx b) (wire_requests b + i)%nat
                     (timer b) (timer_calls b)) Hat) as Hv.
    unfold COUNTS_PER_REVOLUTION in Hv. lia. }
  assert (Hreq : wire_requests (snd (acquire s b))
                 = (wire_requests b + S i)%nat).
  { rewrite acquire_board. cbn [wire_requests].
    rewrite (attempts_first_valid 4 _ _ i Hi Hbefore Hat). reflexivity. }
  split; [exact Hval|]. split; [exact Hrange|]. split; [exact Hreq|].
  intros s' b' H.
  rewrite updateCount_sampled in H by (unfold poll_count in Hrange; lia).
  apply track_position in H as (Hc & _ & _ & _ & _ & ->).
  split; [rewrite Hc; exact Hval|].
  cbn [millis snd wire_requests timer_calls].
  split; [exact Hreq|]. rewrite acquire_board. reflexivity.
Qed.

End FirstReply.

Lemma poll_uses_first_valid_witness :
  count (fst late_reply_board_final) = 10 /\
  wire_requests (snd late_reply_board_final) = 4%nat.
Proof.
  destruct (proj2 (proj2 (proj2
              (poll_uses_first_valid (P := avr) mt6701 late_reply_board 3
                 ltac:(lia)
                 ltac:(intros [|[|[|j]]] Hj; try reflexivity; lia)
                 ltac:(reflexivity))))
              (fst late_reply_board_final) (snd late_reply_board_final)
              ltac:(vm_compute; reflexivity)) as (Hc & Hq & _).
  split; [exact Hc | exact Hq].
Defined.
